(** * fitkit: field resolution and heart-rate series extraction

    A shallow embedding of [merge_fit.py] and of the resolver of
    [pm5_readout.py], and the properties of the field resolver, the
    timestamp normaliser and the series builder.

    Python values are an inductive type, exceptions are the [Err] branch
    of a result type, the binary64 arithmetic of [int(x) / 1000] and of
    [datetime.fromtimestamp] is carried out on integers (a finite double
    is an integer number of units of 2^-1074), the dictionary
    [hr_by_time] is an insertion-ordered association list, and the three
    [print] calls append to a list of output lines. *)

From Stdlib Require Import ZArith List String Ascii Bool Lia.
From Stdlib Require Import DecimalString.
From Stdlib Require Import Sorted.
Import ListNotations.
Local Open Scope string_scope.
Local Open Scope Z_scope.

(** ** Exceptions and the result monad *)

Inductive exn : Type :=
| TypeError
| ValueError
| OverflowError
| OSError
| AttributeError (name : string)
| UnboundLocalError (name : string)
| RuntimeError (msg : string).

Inductive result (A : Type) : Type :=
| Ok (a : A)
| Err (e : exn).
Arguments Ok {A} a.
Arguments Err {A} e.

Definition bind {A B : Type} (r : result A) (k : A -> result B) : result B :=
  match r with
  | Ok a => k a
  | Err e => Err e
  end.

Notation "x <- c ;; k" := (bind c (fun x => k))
  (at level 61, c at next level, right associativity).

(** ** binary64 numbers

    Every finite double is an integer multiple of 2^-1074, so a finite
    double is stored as that integer.  Negative zero is not
    distinguished from zero: nothing in the program can tell them
    apart. *)

Module Float64.

Definition unit_exp : Z := 1074.
Definition U : Z := 2 ^ unit_exp.

Inductive t : Type :=
| Finite (units : Z)
| Infinite (negative : bool)
| NaN.

(** The integer nearest to [n / d], ties to the even one ([0 < d]). *)
Definition round_half_even (n d : Z) : Z :=
  let q := n / d in
  let r := n mod d in
  if 2 * r <? d then q
  else if d <? 2 * r then q + 1
  else if Z.even q then q else q + 1.

(** Spacing of the doubles around the rational [a / d] ([0 <= a],
    [0 < d]), in units: 53 significant bits, and no finer than one
    unit (the subnormal range). *)
Definition grid (a d : Z) : Z :=
  2 ^ Z.max 0 (Z.log2 (a * U / d) - 52).

(** The double nearest to the rational [n / d] ([0 < d]), ties to even;
    [None] when it rounds beyond the largest finite double. *)
Definition nearest (n d : Z) : option Z :=
  let a := Z.abs n in
  let g := grid a d in
  let u := round_half_even (a * U) (d * g) * g in
  if 2 ^ 1024 * U <=? u then None else Some (Z.sgn n * u).

Definition of_Z (z : Z) : t := Finite (z * U).

(** [a * b] on finite doubles, correctly rounded. *)
Definition mul (a b : t) : t :=
  match a, b with
  | Finite x, Finite y =>
      match nearest (x * y) (U * U) with
      | Some u => Finite u
      | None => Infinite (x * y <? 0)
      end
  | NaN, _ | _, NaN => NaN
  | Infinite s, Finite y =>
      if y =? 0 then NaN else Infinite (xorb s (y <? 0))
  | Finite x, Infinite s =>
      if x =? 0 then NaN else Infinite (xorb s (x <? 0))
  | Infinite s, Infinite s' => Infinite (xorb s s')
  end.

(** C's [modf]: integral and fractional part, both with the sign of
    the argument. *)
Definition modf (units : Z) : Z * Z := (Z.quot units U, Z.rem units U).

End Float64.

(** ** Timestamps

    A [datetime] is its wall-clock reading, counted in microseconds
    from 1970-01-01T00:00:00, together with its [tzinfo]: [None] for a
    naive value, [Some off] for a fixed-offset timezone of [off]
    microseconds. *)

Definition timezone : Type := Z.
Definition UTC : timezone := 0.

Record datetime : Type := mkDatetime {
  wall_us : Z;
  tzinfo : option timezone
}.

(** [datetime.__eq__] (and the matching hash): two aware values are
    equal when they are the same instant, two naive ones when they
    read the same, and a naive one never equals an aware one. *)
Definition datetime_eqb (a b : datetime) : bool :=
  match tzinfo a, tzinfo b with
  | Some oa, Some ob => (wall_us a - oa) =? (wall_us b - ob)
  | None, None => wall_us a =? wall_us b
  | _, _ => false
  end.

(** [x.replace(tzinfo=tz)]: same reading, new zone. *)
Definition replace_tzinfo (x : datetime) (tz : timezone) : datetime :=
  mkDatetime (wall_us x) (Some tz).

(** Civil calendar fields of a reading (proleptic Gregorian, as
    [gmtime] computes them). *)
Record civil : Type := mkCivil {
  year : Z; month : Z; day : Z;
  hour : Z; minute : Z; second : Z; microsecond : Z
}.

Definition civil_of_days (days : Z) : Z * Z * Z :=
  let z := days + 719468 in
  let era := z / 146097 in
  let doe := z - era * 146097 in
  let yoe := (doe - doe / 1460 + doe / 36524 - doe / 146096) / 365 in
  let doy := doe - (365 * yoe + yoe / 4 - yoe / 100) in
  let mp := (5 * doy + 2) / 153 in
  let d := doy - (153 * mp + 2) / 5 + 1 in
  let m := if mp <? 10 then mp + 3 else mp - 9 in
  let y := yoe + era * 400 + (if m <=? 2 then 1 else 0) in
  (y, m, d).

Definition civil_of_us (us : Z) : civil :=
  let s := us / 1000000 in
  let sod := s mod 86400 in
  let '(y, m, d) := civil_of_days (s / 86400) in
  mkCivil y m d (sod / 3600) (sod mod 3600 / 60) (sod mod 60) (us mod 1000000).

Definition fields_of (x : datetime) : civil := civil_of_us (wall_us x).

(** Seconds from the epoch to 0001-01-01T00:00:00 and to
    9999-12-31T23:59:59, the range of [datetime]. *)
Definition MIN_SECONDS : Z := -62135596800.
Definition MAX_SECONDS : Z := 253402300799.

(** The seconds [gmtime] can turn into calendar fields: those whose
    year fits a C [int]. *)
Definition GMTIME_MIN : Z := -67768040609740800.
Definition GMTIME_MAX : Z := 67768036191676799.

(** What [fromtimestamp] does with the whole seconds: [OverflowError]
    when they do not fit [time_t], [OSError] when [gmtime] gives up on
    them, [ValueError] when the year is not in 1..9999. *)
Definition check_seconds (sec : Z) : option exn :=
  if (sec <? - 2 ^ 63) || (2 ^ 63 <? sec) then Some OverflowError
  else if (sec <? GMTIME_MIN) || (GMTIME_MAX <? sec) then Some OSError
  else if (sec <? MIN_SECONDS) || (MAX_SECONDS <? sec) then Some ValueError
  else None.

(** [datetime.fromtimestamp(f, tz=UTC)] for a float [f]: split [f] with
    [modf], scale the fraction to microseconds, round it half to even,
    carry into the seconds, and reject what does not fit [time_t],
    [gmtime] or the years 1..9999. *)
Definition fromtimestamp_utc (f : Float64.t) : result datetime :=
  match f with
  | Float64.NaN => Err ValueError
  | Float64.Infinite _ => Err OverflowError
  | Float64.Finite u =>
      let '(intpart, floatpart) := Float64.modf u in
      match Float64.mul (Float64.Finite floatpart) (Float64.of_Z 1000000) with
      | Float64.Finite p =>
          let rounded := Float64.round_half_even p Float64.U in
          let '(sec, us) :=
            if 1000000 <=? rounded then (intpart + 1, rounded - 1000000)
            else if rounded <? 0 then (intpart - 1, rounded + 1000000)
            else (intpart, rounded) in
          match check_seconds sec with
          | Some e => Err e
          | None => Ok (mkDatetime (sec * 1000000 + us) (Some UTC))
          end
      | _ => Err OverflowError
      end
  end.

(** ** Python values

    The values a decoded FIT message can carry: scalars, timestamps,
    lists, and objects given by their data attributes (a message, a
    field, a record header).  [hasattr] and [getattr] look at data
    attributes only: the built-in scalars, lists and timestamps expose
    none under the names this program asks for. *)

#[local] Unset Elimination Schemes.
Inductive value : Type :=
| VNone
| VBool (b : bool)
| VInt (z : Z)
| VFloat (f : Float64.t)
| VStr (s : string)
| VDatetime (d : datetime)
| VList (items : list value)
| VObj (attrs : list (string * value)).
#[local] Set Elimination Schemes.

Fixpoint lookup_attr (name : string) (attrs : list (string * value)) : option value :=
  match attrs with
  | [] => None
  | (k, v) :: rest => if String.eqb k name then Some v else lookup_attr name rest
  end.

(** [getattr(v, name)] when [hasattr(v, name)], else [None]. *)
Definition py_getattr (v : value) (name : string) : option value :=
  match v with
  | VObj attrs => lookup_attr name attrs
  | _ => None
  end.

Definition hasattr (v : value) (name : string) : bool :=
  match py_getattr v name with Some _ => true | None => false end.

(** [v.name]. *)
Definition attr (v : value) (name : string) : result value :=
  match py_getattr v name with
  | Some x => Ok x
  | None => Err (AttributeError name)
  end.

(** [getattr(v, name, default)]. *)
Definition getattr_default (v : value) (name : string) (default : value) : value :=
  match py_getattr v name with Some x => x | None => default end.

Definition is_None (v : value) : bool :=
  match v with VNone => true | _ => false end.

(** [v == s] for a string [s]. *)
Definition eq_str (v : value) (s : string) : bool :=
  match v with VStr s' => String.eqb s' s | _ => false end.

(** [isinstance(v, int)]; [bool] is a subclass of [int]. *)
Definition isinstance_int (v : value) : bool :=
  match v with VInt _ | VBool _ => true | _ => false end.

(** Truth value of [v] in a condition. *)
Definition truthy (v : value) : bool :=
  match v with
  | VNone => false
  | VBool b => b
  | VInt z => negb (z =? 0)
  | VFloat (Float64.Finite u) => negb (u =? 0)
  | VFloat _ => true
  | VStr s => negb (String.eqb s "")
  | VDatetime _ => true
  | VList items => match items with [] => false | _ => true end
  | VObj _ => true
  end.

(** [iter(v)], run to the end: lists give their items, strings their
    characters, nothing else here is iterable. *)
Definition py_iter (v : value) : result (list value) :=
  match v with
  | VList items => Ok items
  | VStr s => Ok (map (fun c => VStr (String c EmptyString)) (list_ascii_of_string s))
  | _ => Err TypeError
  end.

(** *** [int(v)]

    A character of a string is its code point, below 256.  [int]
    strips the blanks of C ([\t\n\v\f\r] and the space) and the two
    non-ASCII spaces below 256 (U+0085 and U+00A0); the separators
    U+001C..U+001F are not stripped. *)

Definition is_space (c : ascii) : bool :=
  let n := Z.of_nat (nat_of_ascii c) in
  ((9 <=? n) && (n <=? 13)) || (n =? 32) || (n =? 133) || (n =? 160).

Definition digit_value (c : ascii) : option Z :=
  let n := Z.of_nat (nat_of_ascii c) in
  if (48 <=? n) && (n <=? 57) then Some (n - 48) else None.

Fixpoint lstrip (s : list ascii) : list ascii :=
  match s with
  | c :: rest => if is_space c then lstrip rest else s
  | [] => []
  end.

Definition strip (s : list ascii) : list ascii :=
  rev (lstrip (rev (lstrip s))).

(** Decimal digits, single underscores allowed between two digits. *)
Fixpoint parse_digits (s : list ascii) (acc : Z) (after_digit : bool) : option Z :=
  match s with
  | [] => if after_digit then Some acc else None
  | c :: rest =>
      match digit_value c with
      | Some d => parse_digits rest (10 * acc + d) true
      | None =>
          if Ascii.eqb c "_"%char && after_digit
          then parse_digits rest acc false
          else None
      end
  end.

Definition int_of_string (s : string) : result Z :=
  let body := strip (list_ascii_of_string s) in
  let parsed :=
    match body with
    | c :: rest =>
        if Ascii.eqb c "-"%char then option_map Z.opp (parse_digits rest 0 false)
        else if Ascii.eqb c "+"%char then parse_digits rest 0 false
        else parse_digits body 0 false
    | [] => None
    end in
  match parsed with Some z => Ok z | None => Err ValueError end.

Definition py_int (v : value) : result Z :=
  match v with
  | VInt z => Ok z
  | VBool b => Ok (if b then 1 else 0)
  | VFloat (Float64.Finite u) => Ok (Z.quot u Float64.U)
  | VFloat (Float64.Infinite _) => Err OverflowError
  | VFloat Float64.NaN => Err ValueError
  | VStr s => int_of_string s
  | VNone | VDatetime _ | VList _ | VObj _ => Err TypeError
  end.

(** [n / d] on integers: the double nearest to the quotient. *)
Definition truediv (n d : Z) : result Float64.t :=
  match Float64.nearest n d with
  | Some u => Ok (Float64.Finite u)
  | None => Err OverflowError
  end.

(** ** merge_fit.py *)

(** [_as_dt]: the timestamp normaliser. *)
Definition _as_dt (x : value) : result (option datetime) :=
  match x with
  | VNone => Ok None
  | VDatetime d =>
      Ok (Some (match tzinfo d with
                | Some _ => d
                | None => replace_tzinfo d UTC
                end))
  | _ =>
      i <- py_int x ;;
      f <- truediv i 1000 ;;
      d <- fromtimestamp_utc f ;;
      Ok (Some d)
  end.

(** The loop of [_field_value_from_fields] over [msg.fields]. *)
Fixpoint scan_fields (fields : list value) (field_name : string) : result value :=
  match fields with
  | [] => Ok VNone
  | f :: rest =>
      if eq_str (getattr_default f "name" VNone) field_name then
        if hasattr f "value" then attr f "value"
        else if hasattr f "raw_value" then attr f "raw_value"
        else Ok VNone
      else scan_fields rest field_name
  end.

Definition _field_value_from_fields (msg : value) (field_name : string) : result value :=
  if is_None msg || negb (hasattr msg "fields") then Ok VNone
  else
    fields <- attr msg "fields" ;;
    items <- py_iter fields ;;
    scan_fields items field_name.

Definition msg_value (msg : value) (field_name : string) : result value :=
  if is_None msg then Ok VNone
  else if hasattr msg field_name then attr msg field_name
  else _field_value_from_fields msg field_name.

(** ** pm5_readout.py *)

Fixpoint find_field (fields : list value) (name : string) : value :=
  match fields with
  | [] => VNone
  | f :: rest =>
      if eq_str (getattr_default f "name" VNone) name then f
      else find_field rest name
  end.

Definition field_by_name (msg : value) (name : string) : result value :=
  if is_None msg || negb (hasattr msg "fields") then Ok VNone
  else
    fields <- attr msg "fields" ;;
    items <- py_iter fields ;;
    Ok (find_field items name).

Definition value_from_msg (msg : value) (name : string) : result value :=
  if is_None msg then Ok VNone
  else if hasattr msg name then
    v <- attr msg name ;;
    if hasattr v "value" then attr v "value" else Ok v
  else
    f <- field_by_name msg name ;;
    if is_None f then Ok VNone
    else Ok (getattr_default f "value" VNone).

(** ** merge_fit.py: the series builder *)

(** *** [extract_polar_hr_series]

    [ff.records], the output of the external decoder, is the input: a
    list of records, each with a header and a message. *)

Record fit_record : Type := mkRecord {
  header : value;
  message : value
}.

(** [hr_by_time]: a dictionary keyed by timestamps, in insertion
    order.  Assigning under a key equal to one already there replaces
    its value in place. *)
Definition series : Type := list (datetime * Z).

Fixpoint dict_set (d : series) (k : datetime) (v : Z) : series :=
  match d with
  | [] => [(k, v)]
  | (k', v') :: rest =>
      if datetime_eqb k' k then (k', v) :: rest
      else (k', v') :: dict_set rest k v
  end.

Fixpoint dict_get (d : series) (k : datetime) : option Z :=
  match d with
  | [] => None
  | (k', v') :: rest => if datetime_eqb k' k then Some v' else dict_get rest k
  end.

(** The local variables of the loop.  [ts] is [None] until its first
    assignment; once assigned it holds what [_as_dt] returned. *)
Record locals : Type := mkLocals {
  hr_by_time : series;
  record_msgs : Z;
  record_with_hr : Z;
  ts : option (option datetime)
}.

Definition initial_locals : locals := mkLocals [] 0 0 None.

(** One iteration of [for rec in ff.records]. *)
Definition loop_body (st : locals) (rec : fit_record) : result locals :=
  if truthy (getattr_default (header rec) "is_definition" (VBool false)) then Ok st
  else
    let msg := message rec in
    if negb (eq_str (getattr_default msg "name" VNone) "record") then Ok st
    else
      let record_msgs' := record_msgs st + 1 in
      raw_ts <- msg_value msg "timestamp" ;;
      ts' <- (if isinstance_int raw_ts
              then (d <- _as_dt raw_ts ;; Ok (Some d))
              else Ok (ts st)) ;;
      hr <- msg_value msg "heart_rate" ;;
      match ts' with
      | None => Err (UnboundLocalError "ts")
      | Some None => Ok (mkLocals (hr_by_time st) record_msgs' (record_with_hr st) ts')
      | Some (Some key) =>
          if is_None hr
          then Ok (mkLocals (hr_by_time st) record_msgs' (record_with_hr st) ts')
          else
            let record_with_hr' := record_with_hr st + 1 in
            n <- py_int hr ;;
            Ok (mkLocals (dict_set (hr_by_time st) key n) record_msgs' record_with_hr' ts')
      end.

Fixpoint run_loop (st : locals) (records : list fit_record) : result locals :=
  match records with
  | [] => Ok st
  | rec :: rest =>
      st' <- loop_body st rec ;;
      run_loop st' rest
  end.

Definition string_of_Z (z : Z) : string := NilZero.string_of_int (Z.to_int z).

Definition empty_message : string :=
  "No record-level HR found in Polar FIT." ++ String "010" "" ++
  "Sanity check: in the debugger, confirm rec.message.name == 'record' " ++
  "and rec.message.heart_rate is populated for at least some records.".

(** What the call prints, and how it ends. *)
Definition extract_polar_hr_series (records : list fit_record)
  : list string * result series :=
  match run_loop initial_locals records with
  | Err e => ([], Err e)
  | Ok st =>
      match hr_by_time st with
      | [] => ([], Err (RuntimeError empty_message))
      | _ =>
          (["[Polar] record messages: " ++ string_of_Z (record_msgs st);
            "[Polar] records with HR: " ++ string_of_Z (record_with_hr st);
            "[Polar] HR samples extracted: "
              ++ string_of_Z (Z.of_nat (List.length (hr_by_time st)))],
           Ok (hr_by_time st))
      end
  end.


(** ** pm5_readout.py: the head of [main]

    [main] first picks the record it inspects,
    [next(rec for rec in ff.records if (not rec.header.is_definition
    and rec.message.name == "record"))], and later lists
    [[f.name for f in msg.fields if getattr(f, "name", None)]].  Both
    read attributes directly, so a missing one raises. *)

Inductive selection : Type :=
| Selected (rec : fit_record)
| StopIteration
| Raised (e : exn).

Fixpoint main_rec0 (records : list fit_record) : selection :=
  match records with
  | [] => StopIteration
  | rec :: rest =>
      match attr (header rec) "is_definition" with
      | Err e => Raised e
      | Ok flag =>
          if truthy flag then main_rec0 rest
          else
            match attr (message rec) "name" with
            | Err e => Raised e
            | Ok n => if eq_str n "record" then Selected rec else main_rec0 rest
            end
      end
  end.



(** ** Vocabulary of the properties *)

(** The two filters at the head of the loop body. *)
Definition is_definition (rec : fit_record) : bool :=
  truthy (getattr_default (header rec) "is_definition" (VBool false)).

Definition is_record_message (rec : fit_record) : bool :=
  eq_str (getattr_default (message rec) "name" VNone) "record".

Definition filtered_out (rec : fit_record) : Prop :=
  is_definition rec = true \/ is_record_message rec = false.

(** A data record of the target type whose timestamp resolves to an
    integer normalising to [key] and whose heart rate resolves to a
    value that [int] turns into [n]. *)
Definition qualifies (rec : fit_record) (key : datetime) (n : Z) : Prop :=
  is_definition rec = false /\
  is_record_message rec = true /\
  exists raw hr,
    msg_value (message rec) "timestamp" = Ok raw /\
    isinstance_int raw = true /\
    _as_dt raw = Ok (Some key) /\
    msg_value (message rec) "heart_rate" = Ok hr /\
    is_None hr = false /\
    py_int hr = Ok n.

(** A record that, if it passes the filters, carries an integer
    timestamp of its own. *)
Definition carries_timestamp (rec : fit_record) : Prop :=
  filtered_out rec \/
  exists raw, msg_value (message rec) "timestamp" = Ok raw /\
              isinstance_int raw = true.

(** A record that stores nothing at [key]. *)
Definition stores_elsewhere (key : datetime) (rec : fit_record) : Prop :=
  carries_timestamp rec /\
  forall k n, qualifies rec k n -> datetime_eqb k key = false.

(** The entries of a series stored under a timestamp equal to [k]. *)
Definition samples_at (d : series) (k : datetime) : series :=
  filter (fun e => datetime_eqb (fst e) k) d.

(** A message lacks a field when it neither exposes it as an attribute
    nor lists it in its field collection. *)
Definition lacks_field (msg : value) (name : string) : Prop :=
  py_getattr msg name = None /\
  (py_getattr msg "fields" = None \/
   exists fields,
     py_getattr msg "fields" = Some (VList fields) /\
     Forall (fun f => eq_str (getattr_default f "name" VNone) name = false) fields).

(** [Optional[datetime]] seen as a value again. *)
Definition of_optional (r : option datetime) : value :=
  match r with
  | None => VNone
  | Some d => VDatetime d
  end.

(** The field resolver as section 4.1 of the specification words it:
    a direct attribute is returned with one level of [.value]
    unwrapped; otherwise the first entry of the field collection with
    a matching name gives its [.value], else its [.raw_value], else
    absent. *)
Fixpoint spec_scan (fields : list value) (name : string) : value :=
  match fields with
  | [] => VNone
  | f :: rest =>
      if eq_str (getattr_default f "name" VNone) name then
        match py_getattr f "value", py_getattr f "raw_value" with
        | Some v, _ => v
        | None, Some raw => raw
        | None, None => VNone
        end
      else spec_scan rest name
  end.

Definition spec_resolve (msg : value) (name : string) : result value :=
  match msg with
  | VNone => Ok VNone
  | _ =>
      match py_getattr msg name with
      | Some v => Ok (getattr_default v "value" v)
      | None =>
          match py_getattr msg "fields" with
          | None => Ok VNone
          | Some fields =>
              items <- py_iter fields ;;
              Ok (spec_scan items name)
          end
      end
  end.

(** No two entries of a series are stored under equal timestamps. *)
Fixpoint keys_distinct (d : series) : Prop :=
  match d with
  | [] => True
  | (k, _) :: rest => dict_get rest k = None /\ keys_distinct rest
  end.

(** What [ts] holds after lines 89-91 of [merge_fit.py]: the
    normalised timestamp of this record when it resolved to an
    integer, and whatever it held before otherwise. *)
Definition assigned (st : locals) (raw : value) (cur : option datetime) : Prop :=
  (isinstance_int raw = true /\ _as_dt raw = Ok cur) \/
  (isinstance_int raw = false /\ ts st = Some cur).

(** [k] is what the normaliser made of the integer timestamp of one of
    the records; [n] is what [int] made of the heart rate of one of
    the records. *)
Definition normalised_from (records : list fit_record) (k : datetime) : Prop :=
  exists rec raw,
    In rec records /\
    msg_value (message rec) "timestamp" = Ok raw /\
    isinstance_int raw = true /\
    _as_dt raw = Ok (Some k).

Definition coerced_from (records : list fit_record) (n : Z) : Prop :=
  exists rec hr,
    In rec records /\
    msg_value (message rec) "heart_rate" = Ok hr /\
    py_int hr = Ok n.

(** The three lines printed from the final values of the locals. *)
Definition report (st : locals) : list string :=
  ["[Polar] record messages: " ++ string_of_Z (record_msgs st);
   "[Polar] records with HR: " ++ string_of_Z (record_with_hr st);
   "[Polar] HR samples extracted: "
     ++ string_of_Z (Z.of_nat (List.length (hr_by_time st)))].

(** The counter of records with a sample is zero exactly while the
    dictionary is empty. *)
Definition counted (st : locals) : Prop :=
  0 <= record_with_hr st /\ (record_with_hr st = 0 <-> hr_by_time st = []).

(** Every key stored, and what [ts] holds, was normalised from the
    timestamp of a record seen so far; every value stored was coerced
    from the heart rate of one. *)
Definition sourced (records : list fit_record) (st : locals) : Prop :=
  (forall k v, In (k, v) (hr_by_time st) ->
     normalised_from records k /\ coerced_from records v) /\
  (forall k, ts st = Some (Some k) -> normalised_from records k).

(** *** Vocabulary of the further properties *)

(** A record that passes both filters of the loop. *)
Definition passes (rec : fit_record) : Prop :=
  is_definition rec = false /\ is_record_message rec = true.

Definition passesb (rec : fit_record) : bool :=
  negb (is_definition rec) && is_record_message rec.

(** A passing record with a usable integer timestamp and an absent
    heart rate. *)
Definition timestamp_only (rec : fit_record) : Prop :=
  passes rec /\
  exists raw k,
    msg_value (message rec) "timestamp" = Ok raw /\
    isinstance_int raw = true /\
    _as_dt raw = Ok (Some k) /\
    msg_value (message rec) "heart_rate" = Ok VNone.


(** An input every record of which is filtered out, or carries a
    usable timestamp and no heart rate, or qualifies; with the samples
    of the qualifying records in source order and the number of
    records that pass the filters. *)
Inductive clean_pass : list fit_record -> list (datetime * Z) -> Z -> Prop :=
| clean_nil : clean_pass [] [] 0
| clean_filtered rec rest samples m :
    filtered_out rec -> clean_pass rest samples m ->
    clean_pass (rec :: rest) samples m
| clean_timestamp_only rec rest samples m :
    timestamp_only rec -> clean_pass rest samples m ->
    clean_pass (rec :: rest) samples (m + 1)
| clean_sample rec rest k n samples m :
    qualifies rec k n -> clean_pass rest samples m ->
    clean_pass (rec :: rest) ((k, n) :: samples) (m + 1).

(** Assigning the samples one after the other. *)
Definition store_all (d : series) (samples : list (datetime * Z)) : series :=
  fold_left (fun acc e => dict_set acc (fst e) (snd e)) samples d.

(** The millisecond counts that fall inside the years 1..9999. *)
Definition in_datetime_range (t : Z) : Prop :=
  MIN_SECONDS * 1000 <= t <= MAX_SECONDS * 1000 + 999.

(** A passing record whose timestamp resolves to the integer [fst p]
    and whose heart rate resolves to something [int] turns into
    [snd p]. *)
Definition int_sample (rec : fit_record) (p : Z * Z) : Prop :=
  passes rec /\
  msg_value (message rec) "timestamp" = Ok (VInt (fst p)) /\
  exists hr,
    msg_value (message rec) "heart_rate" = Ok hr /\
    is_None hr = false /\
    py_int hr = Ok (snd p).

(** An entry of the series that holds the heart rate [snd p] under
    what the normaliser makes of [fst p]. *)
Definition entry_of (e : datetime * Z) (p : Z * Z) : Prop :=
  _as_dt (VInt (fst p)) = Ok (Some (fst e)) /\ snd e = snd p.

Definition earlier (e f : datetime * Z) : Prop :=
  wall_us (fst e) < wall_us (fst f).

(** *** Sample records *)

Definition utc_instant (us : Z) : datetime := mkDatetime us (Some UTC).

Definition definition_record : fit_record :=
  mkRecord (VObj [("is_definition", VBool true)])
           (VObj [("name", VStr "record");
                  ("timestamp", VInt 500); ("heart_rate", VInt 99)]).

Definition data_record (timestamp heart_rate : value) : fit_record :=
  mkRecord (VObj [("is_definition", VBool false)])
           (VObj [("name", VStr "record");
                  ("timestamp", timestamp); ("heart_rate", heart_rate)]).

(** A message whose heart rate is an attribute wrapping its value. *)
Definition wrapped_message : value :=
  VObj [("name", VStr "record");
        ("heart_rate", VObj [("value", VInt 120)])].

(** A message whose heart rate is only in the field collection, and
    only as a raw value. *)
Definition raw_only_message : value :=
  VObj [("name", VStr "record");
        ("fields", VList [VObj [("name", VStr "heart_rate");
                                ("raw_value", VInt 120)]])].

(** A message listing its fields in the field collection only. *)
Definition listed_message : value :=
  VObj [("name", VStr "record");
        ("fields", VList [VObj [("name", VStr "timestamp"); ("value", VInt 1000)];
                          VObj [("name", VStr "heart_rate");
                                ("value", VInt 120); ("raw_value", VInt 7)]])].

(** * Properties *)

(** ** Rounding *)

Lemma round_half_even_error (n d : Z) :
  0 < d -> 2 * Z.abs (Float64.round_half_even n d * d - n) <= d.
Proof.
  intros Hd. unfold Float64.round_half_even.
  pose proof (Z.div_mod n d ltac:(lia)) as Hn.
  pose proof (Z.mod_pos_bound n d Hd) as Hr.
  set (q := n / d) in *. set (r := n mod d) in *.
  destruct (2 * r <? d) eqn:E1; [apply Z.ltb_lt in E1; nia|].
  apply Z.ltb_ge in E1.
  destruct (d <? 2 * r) eqn:E2; [apply Z.ltb_lt in E2; nia|].
  apply Z.ltb_ge in E2.
  destruct (Z.even q); nia.
Qed.

Lemma grid_pos (a d : Z) : 0 < Float64.grid a d.
Proof. unfold Float64.grid. apply Z.pow_pos_nonneg; lia. Qed.

Lemma grid_le (a d k : Z) :
  52 <= k -> a * Float64.U / d < 2 ^ (k + 1) ->
  Float64.grid a d <= 2 ^ (k - 52).
Proof.
  intros Hk Hlt. unfold Float64.grid.
  apply Z.pow_le_mono_r; [lia|].
  destruct (Z_lt_le_dec 0 (a * Float64.U / d)) as [Hpos|Hnp].
  - apply Z.log2_lt_pow2 in Hlt; lia.
  - rewrite (Z.log2_nonpos _ Hnp). lia.
Qed.

(** Within a binade bounded by [2 ^ (k + 1)] the nearest double exists
    and is off by at most half a grid step. *)
Lemma nearest_error (n d k : Z) :
  0 < d -> 52 <= k <= 2095 ->
  Z.abs n * Float64.U < 2 ^ (k + 1) * d ->
  exists u, Float64.nearest n d = Some u /\
            2 * Z.abs (u * d - n * Float64.U) <= d * 2 ^ (k - 52).
Proof.
  intros Hd Hk Hlt. unfold Float64.nearest.
  set (a := Z.abs n) in *.
  assert (Hq : a * Float64.U / d < 2 ^ (k + 1))
    by (apply Z.div_lt_upper_bound; lia).
  pose proof (grid_pos a d) as Hg0.
  pose proof (grid_le a d k ltac:(lia) Hq) as Hg.
  set (g := Float64.grid a d) in *.
  pose proof (round_half_even_error (a * Float64.U) (d * g) ltac:(nia)) as Hm.
  set (m := Float64.round_half_even (a * Float64.U) (d * g)) in *.
  assert (Hpow : 2 ^ (k + 1) = 2 ^ (k - 52) * 2 ^ 53)
    by (rewrite <- Z.pow_add_r by lia; f_equal; lia).
  assert (Hbig : 2 ^ (k + 1) * 4 <= 2 ^ 1024 * Float64.U).
  { unfold Float64.U, Float64.unit_exp. rewrite <- Z.pow_add_r by lia.
    change 4 with (2 ^ 2). rewrite <- Z.pow_add_r by lia.
    apply Z.pow_le_mono_r; lia. }
  assert (Hp : 0 < 2 ^ (k - 52)) by (apply Z.pow_pos_nonneg; lia).
  assert (Hud : 2 * Z.abs (m * g * d - a * Float64.U) <= d * 2 ^ (k - 52)).
  { replace (m * g * d) with (m * (d * g)) by ring. nia. }
  assert (Hu : m * g < 2 ^ 1024 * Float64.U).
  { assert (Hle : d * 2 ^ (k - 52) <= 2 ^ (k + 1) * d) by (rewrite Hpow; nia).
    assert (Hmg : m * g * d < 2 ^ (k + 1) * 2 * d) by lia.
    assert (m * g < 2 ^ (k + 1) * 2); [|lia].
    apply (Z.mul_lt_mono_pos_r d); lia. }
  exists (Z.sgn n * (m * g)). split.
  - destruct (2 ^ 1024 * Float64.U <=? m * g) eqn:E; [apply Z.leb_le in E; lia|reflexivity].
  - replace (Z.sgn n * (m * g) * d - n * Float64.U)
      with (Z.sgn n * (m * g * d - a * Float64.U)).
    + rewrite Z.abs_mul.
      destruct (Z.eq_dec n 0) as [->|Hn0].
      * simpl. nia.
      * replace (Z.abs (Z.sgn n)) with 1 by (destruct n; simpl; try reflexivity; lia). lia.
    + assert (Hn : n = Z.sgn n * a) by (unfold a; lia).
      replace (n * Float64.U) with (Z.sgn n * a * Float64.U)
        by (rewrite <- Hn; reflexivity).
      ring.
Qed.

Lemma U_pos : 0 < Float64.U.
Proof. unfold Float64.U. apply Z.pow_pos_nonneg; unfold Float64.unit_exp; lia. Qed.

Lemma U_split (k : Z) : 0 <= k <= 1074 -> Float64.U = 2 ^ k * 2 ^ (1074 - k).
Proof.
  intros Hk. unfold Float64.U, Float64.unit_exp.
  rewrite <- Z.pow_add_r by lia. f_equal. lia.
Qed.

Lemma pow2_above_U (k : Z) : 0 <= k -> 2 ^ (1074 + k) = 2 ^ k * Float64.U.
Proof.
  intros Hk. unfold Float64.U, Float64.unit_exp.
  rewrite <- Z.pow_add_r by lia. f_equal. lia.
Qed.

Lemma check_seconds_ok (sec : Z) :
  MIN_SECONDS <= sec <= MAX_SECONDS -> check_seconds sec = None.
Proof.
  unfold check_seconds, MIN_SECONDS, MAX_SECONDS, GMTIME_MIN, GMTIME_MAX.
  change (2 ^ 63) with 9223372036854775808. intros H.
  rewrite !(proj2 (Z.ltb_ge _ _)) by lia. reflexivity.
Qed.

Lemma check_seconds_out (sec : Z) :
  sec < MIN_SECONDS \/ MAX_SECONDS < sec -> exists e, check_seconds sec = Some e.
Proof.
  unfold check_seconds. intros H.
  destruct ((sec <? - 2 ^ 63) || (2 ^ 63 <? sec)); [eexists; reflexivity|].
  destruct ((sec <? GMTIME_MIN) || (GMTIME_MAX <? sec)); [eexists; reflexivity|].
  replace ((sec <? MIN_SECONDS) || (MAX_SECONDS <? sec)) with true;
    [eexists; reflexivity|].
  symmetry. apply orb_true_iff.
  destruct H as [H|H]; [left|right]; apply Z.ltb_lt; exact H.
Qed.

(** [fromtimestamp] of the double nearest to [t / 1000] is exactly [t]
    milliseconds after the epoch while the quotient stays below 2^33
    seconds: there the double is within 2^-21 s of the quotient, less
    than half a microsecond. *)
Lemma fromtimestamp_of_millis (t : Z) :
  Z.abs t < 2 ^ 33 * 1000 ->
  exists u, Float64.nearest t 1000 = Some u /\
            fromtimestamp_utc (Float64.Finite u)
            = Ok (mkDatetime (1000 * t) (Some UTC)).
Proof.
  intros Ht.
  pose proof U_pos as HU.
  destruct (nearest_error t 1000 1106) as (u & Hu & Eu); [lia|lia| |].
  { change (1106 + 1) with (1074 + 33). rewrite pow2_above_U by lia. nia. }
  exists u. split; [exact Hu|].
  change (1106 - 52) with 1054 in Eu.
  unfold fromtimestamp_utc, Float64.modf, Float64.mul, Float64.of_Z.
  pose proof (Z.quot_rem' u Float64.U) as Hqr.
  pose proof (Z.rem_bound_abs u Float64.U ltac:(lia)) as Hfr.
  set (ip := Z.quot u Float64.U) in *. set (fr := Z.rem u Float64.U) in *.
  rewrite (Z.abs_eq Float64.U) in Hfr by lia.
  destruct (nearest_error (fr * (1000000 * Float64.U)) (Float64.U * Float64.U) 1093)
    as (p & Hp & Ep); [nia|lia| |].
  { change (1093 + 1) with (1074 + 20). rewrite pow2_above_U by lia.
    rewrite Z.abs_mul, (Z.abs_eq (1000000 * Float64.U)) by lia.
    change (2 ^ 20) with 1048576. nia. }
  rewrite Hp. change (1093 - 52) with 1041 in Ep.
  pose proof (round_half_even_error p Float64.U HU) as HR.
  set (R := Float64.round_half_even p Float64.U) in *.
  pose proof (U_split 20 ltac:(lia)) as H20. change (1074 - 20) with 1054 in H20.
  pose proof (U_split 33 ltac:(lia)) as H33. change (1074 - 33) with 1041 in H33.
  change (2 ^ 20) with 1048576 in H20. change (2 ^ 33) with 8589934592 in H33, Ht.
  assert (H1054 : 0 < 2 ^ 1054) by (apply Z.pow_pos_nonneg; lia).
  assert (H1041 : 0 < 2 ^ 1041) by (apply Z.pow_pos_nonneg; lia).
  (* the product with 1e6 is within 2^-34 of the exact one *)
  assert (Ep' : 2 * Z.abs (p - fr * 1000000) <= 2 ^ 1041).
  { replace (p * (Float64.U * Float64.U) - fr * (1000000 * Float64.U) * Float64.U)
      with ((p - fr * 1000000) * (Float64.U * Float64.U)) in Ep by ring.
    rewrite Z.abs_mul, (Z.abs_eq (Float64.U * Float64.U)) in Ep by nia.
    assert (0 < Float64.U * Float64.U) by nia.
    apply (Z.mul_le_mono_pos_r _ _ (Float64.U * Float64.U)); lia. }
  assert (Htotal : ip * 1000000 + R = 1000 * t).
  { assert (Hlt : Z.abs (ip * 1000000 + R - 1000 * t) * Float64.U < 1 * Float64.U);
      [|apply Z.mul_lt_mono_pos_r in Hlt; lia].
    rewrite <- (Z.abs_eq Float64.U) at 1 by lia. rewrite <- Z.abs_mul.
    replace ((ip * 1000000 + R - 1000 * t) * Float64.U)
      with ((R * Float64.U - p) + (p - fr * 1000000)
            + 1000 * (u * 1000 - t * Float64.U))
      by (rewrite Hqr at 1; ring).
    lia. }
  assert (HRr : -1000000 <= R <= 2000000).
  { assert (2 * Z.abs (R * Float64.U) <= 2 * 1000001 * Float64.U + Float64.U) by lia.
    rewrite Z.abs_mul, (Z.abs_eq Float64.U) in H by lia. nia. }
  assert (Hip : -8589934595 <= ip <= 8589934595) by lia.
  destruct (1000000 <=? R) eqn:E1.
  - apply Z.leb_le in E1.
    rewrite (check_seconds_ok (ip + 1))
      by (unfold MIN_SECONDS, MAX_SECONDS; lia).
    do 2 f_equal. lia.
  - apply Z.leb_gt in E1. destruct (R <? 0) eqn:E2.
    + apply Z.ltb_lt in E2.
      rewrite (check_seconds_ok (ip - 1))
      by (unfold MIN_SECONDS, MAX_SECONDS; lia).
      do 2 f_equal. lia.
    + apply Z.ltb_ge in E2.
      rewrite (check_seconds_ok (ip))
      by (unfold MIN_SECONDS, MAX_SECONDS; lia).
      do 2 f_equal. lia.
Qed.

(** ** The field resolvers *)

Section Resolver.

Variable name : string.

Let names_field (f : value) : bool :=
  eq_str (getattr_default f "name" VNone) name.

Lemma hasattr_true (v x : value) (a : string) :
  py_getattr v a = Some x -> hasattr v a = true /\ attr v a = Ok x.
Proof. unfold hasattr, attr. intros ->. split; reflexivity. Qed.

Lemma hasattr_false (v : value) (a : string) :
  py_getattr v a = None -> hasattr v a = false.
Proof. unfold hasattr. intros ->. reflexivity. Qed.

Lemma getattr_not_None (v x : value) (a : string) :
  py_getattr v a = Some x -> is_None v = false.
Proof. destruct v; simpl; intros H; try reflexivity; discriminate. Qed.

Lemma named_not_None (f : value) : names_field f = true -> is_None f = false.
Proof. destruct f; simpl; intros H; try reflexivity; discriminate. Qed.

Lemma scan_fields_no_match (fields : list value) :
  Forall (fun f => names_field f = false) fields ->
  scan_fields fields name = Ok VNone.
Proof.
  induction 1 as [|f rest Hf _ IH]; simpl; [reflexivity|].
  unfold names_field in Hf. rewrite Hf. exact IH.
Qed.

Lemma scan_fields_first_match (pre post : list value) (f : value) :
  Forall (fun g => names_field g = false) pre ->
  names_field f = true ->
  scan_fields (pre ++ f :: post) name
  = Ok (match py_getattr f "value" with
        | Some v => v
        | None => getattr_default f "raw_value" VNone
        end).
Proof.
  intros Hpre Hf. induction Hpre as [|g rest Hg _ IH]; simpl.
  - unfold names_field in Hf. rewrite Hf.
    unfold hasattr, attr, getattr_default.
    destruct (py_getattr f "value"); [reflexivity|].
    destruct (py_getattr f "raw_value"); reflexivity.
  - unfold names_field in Hg. rewrite Hg. exact IH.
Qed.

Lemma find_field_no_match (fields : list value) :
  Forall (fun f => names_field f = false) fields ->
  find_field fields name = VNone.
Proof.
  induction 1 as [|f rest Hf _ IH]; simpl; [reflexivity|].
  unfold names_field in Hf. rewrite Hf. exact IH.
Qed.

Lemma find_field_first_match (pre post : list value) (f : value) :
  Forall (fun g => names_field g = false) pre ->
  names_field f = true ->
  find_field (pre ++ f :: post) name = f.
Proof.
  intros Hpre Hf. induction Hpre as [|g rest Hg _ IH]; simpl.
  - unfold names_field in Hf. rewrite Hf. reflexivity.
  - unfold names_field in Hg. rewrite Hg. exact IH.
Qed.

Lemma msg_value_direct (msg v : value) :
  py_getattr msg name = Some v -> msg_value msg name = Ok v.
Proof.
  intros H. unfold msg_value.
  rewrite (getattr_not_None _ _ _ H).
  destruct (hasattr_true _ _ _ H) as [-> ->]. reflexivity.
Qed.

Lemma value_from_msg_direct (msg v : value) :
  py_getattr msg name = Some v ->
  value_from_msg msg name = Ok (getattr_default v "value" v).
Proof.
  intros H. unfold value_from_msg.
  rewrite (getattr_not_None _ _ _ H).
  destruct (hasattr_true _ _ _ H) as [-> ->]. simpl.
  unfold hasattr, attr, getattr_default.
  destruct (py_getattr v "value"); reflexivity.
Qed.

Lemma msg_value_fallback (msg : value) (fields : list value) :
  py_getattr msg name = None ->
  py_getattr msg "fields" = Some (VList fields) ->
  msg_value msg name = scan_fields fields name.
Proof.
  intros Hn Hf. unfold msg_value, _field_value_from_fields.
  rewrite (getattr_not_None _ _ _ Hf), (hasattr_false _ _ Hn).
  destruct (hasattr_true _ _ _ Hf) as [-> ->]. reflexivity.
Qed.

Lemma value_from_msg_fallback (msg : value) (fields : list value) :
  py_getattr msg name = None ->
  py_getattr msg "fields" = Some (VList fields) ->
  value_from_msg msg name
  = (let f := find_field fields name in
     if is_None f then Ok VNone else Ok (getattr_default f "value" VNone)).
Proof.
  intros Hn Hf. unfold value_from_msg, field_by_name.
  rewrite (getattr_not_None _ _ _ Hf), (hasattr_false _ _ Hn).
  destruct (hasattr_true _ _ _ Hf) as [-> ->]. reflexivity.
Qed.

Lemma field_value_absent (msg : value) :
  msg = VNone \/ lacks_field msg name ->
  _field_value_from_fields msg name = Ok VNone.
Proof.
  intros [->|[_ [Hf|(fields & Hf & Hall)]]]; unfold _field_value_from_fields.
  - reflexivity.
  - rewrite (hasattr_false _ _ Hf), orb_true_r. reflexivity.
  - rewrite (getattr_not_None _ _ _ Hf).
    destruct (hasattr_true _ _ _ Hf) as [-> ->]. simpl.
    apply scan_fields_no_match. exact Hall.
Qed.

Lemma msg_value_absent (msg : value) :
  msg = VNone \/ lacks_field msg name -> msg_value msg name = Ok VNone.
Proof.
  intros H. unfold msg_value.
  destruct (is_None msg) eqn:E; [reflexivity|].
  destruct H as [->|Hl]; [discriminate|].
  rewrite (hasattr_false _ _ (proj1 Hl)).
  apply field_value_absent. right. exact Hl.
Qed.

Lemma value_from_msg_absent (msg : value) :
  msg = VNone \/ lacks_field msg name -> value_from_msg msg name = Ok VNone.
Proof.
  intros H. unfold value_from_msg.
  destruct (is_None msg) eqn:E; [reflexivity|].
  destruct H as [->|[Hn [Hf|(fields & Hf & Hall)]]]; [discriminate| |].
  - rewrite (hasattr_false _ _ Hn). unfold field_by_name.
    rewrite E, (hasattr_false _ _ Hf). reflexivity.
  - rewrite (hasattr_false _ _ Hn). unfold field_by_name.
    rewrite E. destruct (hasattr_true _ _ _ Hf) as [-> ->]. simpl.
    rewrite (find_field_no_match _ Hall). reflexivity.
Qed.

End Resolver.

(** C2, as the specification states it, fails on [msg_value]: a direct
    attribute that wraps its value is returned as the wrapper, where
    the stated resolution order returns the wrapped 120. *)
Lemma msg_value_keeps_wrapper :
  msg_value wrapped_message "heart_rate" = Ok (VObj [("value", VInt 120)]) /\
  spec_resolve wrapped_message "heart_rate" = Ok (VInt 120) /\
  msg_value wrapped_message "heart_rate" <> spec_resolve wrapped_message "heart_rate".
Proof. repeat split. discriminate. Qed.

(** C2, amended: both resolvers are two-tier, each with one half of the
    stated behaviour.  On a direct attribute [msg_value] returns the
    attribute as it is and [value_from_msg] unwraps one level of
    [.value].  Otherwise the first entry of the field collection whose
    name matches decides: [msg_value] returns its [.value], else its
    [.raw_value], else absent, and [value_from_msg] returns its
    [.value] or absent.  With no matching entry both return absent. *)
Theorem resolvers_two_tier (msg : value) (name : string) :
  (forall v, py_getattr msg name = Some v ->
     msg_value msg name = Ok v /\
     value_from_msg msg name = Ok (getattr_default v "value" v)) /\
  (forall pre f post,
     py_getattr msg name = None ->
     py_getattr msg "fields" = Some (VList (pre ++ f :: post)) ->
     Forall (fun g => eq_str (getattr_default g "name" VNone) name = false) pre ->
     eq_str (getattr_default f "name" VNone) name = true ->
     msg_value msg name
     = Ok (match py_getattr f "value" with
           | Some v => v
           | None => getattr_default f "raw_value" VNone
           end) /\
     value_from_msg msg name = Ok (getattr_default f "value" VNone)) /\
  (lacks_field msg name ->
     msg_value msg name = Ok VNone /\ value_from_msg msg name = Ok VNone).
Proof.
  split; [|split].
  - intros v Hv. split.
    + apply msg_value_direct, Hv.
    + apply value_from_msg_direct, Hv.
  - intros pre f post Hn Hf Hpre Hm. split.
    + rewrite (msg_value_fallback _ _ _ Hn Hf).
      apply scan_fields_first_match; assumption.
    + rewrite (value_from_msg_fallback _ _ _ Hn Hf). cbv zeta.
      rewrite (find_field_first_match _ _ _ _ Hpre Hm).
      rewrite (named_not_None name f Hm). reflexivity.
  - intros Hl. split.
    + apply msg_value_absent. right. exact Hl.
    + apply value_from_msg_absent. right. exact Hl.
Qed.

Lemma resolvers_two_tier_witness :
  (msg_value wrapped_message "heart_rate" = Ok (VObj [("value", VInt 120)]) /\
   value_from_msg wrapped_message "heart_rate" = Ok (VInt 120)) /\
  (msg_value raw_only_message "heart_rate" = Ok (VInt 120) /\
   value_from_msg raw_only_message "heart_rate" = Ok VNone) /\
  (msg_value listed_message "heart_rate" = Ok (VInt 120) /\
   value_from_msg listed_message "heart_rate" = Ok (VInt 120)) /\
  (msg_value listed_message "power" = Ok VNone /\
   value_from_msg listed_message "power" = Ok VNone).
Proof.
  split; [|split; [|split]].
  - apply (proj1 (resolvers_two_tier wrapped_message "heart_rate")
             (VObj [("value", VInt 120)])).
    reflexivity.
  - apply (proj1 (proj2 (resolvers_two_tier raw_only_message "heart_rate"))
             [] (VObj [("name", VStr "heart_rate"); ("raw_value", VInt 120)]) []);
      [reflexivity|reflexivity|constructor|reflexivity].
  - apply (proj1 (proj2 (resolvers_two_tier listed_message "heart_rate"))
             [VObj [("name", VStr "timestamp"); ("value", VInt 1000)]]
             (VObj [("name", VStr "heart_rate");
                    ("value", VInt 120); ("raw_value", VInt 7)]) []);
      [reflexivity|reflexivity|repeat constructor|reflexivity].
  - apply (proj2 (proj2 (resolvers_two_tier listed_message "power"))).
    split; [reflexivity|]. right. eexists. split; [reflexivity|].
    repeat constructor.
Defined.

(** C8: [msg_value] and its fallback [_field_value_from_fields] return
    absent, and do not raise, on an absent message and on every
    message that lacks the requested field. *)
Theorem msg_value_total_on_missing (msg : value) (name : string) :
  msg = VNone \/ lacks_field msg name ->
  msg_value msg name = Ok VNone /\
  _field_value_from_fields msg name = Ok VNone.
Proof.
  intros H. split.
  - apply msg_value_absent, H.
  - apply field_value_absent, H.
Qed.

Lemma msg_value_total_on_missing_witness :
  (msg_value VNone "heart_rate" = Ok VNone /\
   _field_value_from_fields VNone "heart_rate" = Ok VNone) /\
  (msg_value listed_message "power" = Ok VNone /\
   _field_value_from_fields listed_message "power" = Ok VNone).
Proof.
  split.
  - apply (msg_value_total_on_missing VNone "heart_rate"). left. reflexivity.
  - apply (msg_value_total_on_missing listed_message "power"). right.
    split; [reflexivity|]. right. eexists. split; [reflexivity|].
    repeat constructor.
Defined.

(** ** The timestamp normaliser *)

Ltac destruct_if :=
  match goal with
  | |- context [if ?c then _ else _] => destruct c
  | H : context [if ?c then _ else _] |- _ => destruct c
  end.

Lemma fromtimestamp_utc_aware (f : Float64.t) (d : datetime) :
  fromtimestamp_utc f = Ok d -> tzinfo d = Some UTC.
Proof.
  unfold fromtimestamp_utc. destruct f as [u| |]; try discriminate.
  destruct (Float64.modf u) as [intpart floatpart].
  destruct (Float64.mul _ _) as [p| |]; try discriminate.
  destruct (1000000 <=? _); [|destruct (_ <? 0)];
    destruct (check_seconds _); intros H; inversion H; reflexivity.
Qed.

(** What [_as_dt] returns for an integer is always a timestamp, and an
    aware one. *)
Lemma as_dt_int_aware (raw : value) (r : option datetime) :
  isinstance_int raw = true -> _as_dt raw = Ok r ->
  exists d, r = Some d /\ tzinfo d = Some UTC.
Proof.
  intros Hint H.
  assert (Hb : (i <- py_int raw ;; f <- truediv i 1000 ;;
                d <- fromtimestamp_utc f ;; Ok (Some d)) = Ok r)
    by (destruct raw; try discriminate; exact H).
  clear H. destruct (py_int raw) as [i|]; [|discriminate].
  cbn [bind] in Hb. destruct (truediv i 1000) as [f|]; [|discriminate].
  cbn [bind] in Hb. destruct (fromtimestamp_utc f) as [d|] eqn:Ef; [|discriminate].
  cbn [bind] in Hb. inversion Hb. exists d. split; [reflexivity|].
  eapply fromtimestamp_utc_aware, Ef.
Qed.

Lemma as_dt_aware_unchanged (w : Z) (tz : timezone) :
  _as_dt (VDatetime (mkDatetime w (Some tz))) = Ok (Some (mkDatetime w (Some tz))).
Proof. reflexivity. Qed.

(** C4: normalising an integer timestamp and normalising the result
    again gives what normalising once gives, and every timestamp that
    carries a timezone is returned unchanged. *)
Theorem as_dt_idempotent :
  (forall t : Z,
     (r <- _as_dt (VInt t) ;; _as_dt (of_optional r)) = _as_dt (VInt t)) /\
  (forall (w : Z) (tz : timezone),
     _as_dt (VDatetime (mkDatetime w (Some tz)))
     = Ok (Some (mkDatetime w (Some tz)))).
Proof.
  split; [|exact as_dt_aware_unchanged].
  intros t. destruct (_as_dt (VInt t)) as [r|e] eqn:E; [|reflexivity].
  destruct (as_dt_int_aware (VInt t) r eq_refl E) as (d & -> & Hd).
  cbn [bind of_optional]. destruct d as [w tz]. simpl in Hd. subst tz.
  reflexivity.
Qed.

(** C5, as the specification states it, fails past the year 2242: from
    2^33 seconds on, the double nearest to [t / 1000] can be more than
    half a microsecond away from it, and the instant returned for
    8589934592001 ms ends in .000999 s; and an integer beyond the year
    9999 makes [fromtimestamp] raise. *)
Lemma as_dt_inexact_after_2242 :
  _as_dt (VInt 8589934592001) = Ok (Some (utc_instant 8589934592000999)) /\
  _as_dt (VInt 8589934592001) <> Ok (Some (utc_instant (1000 * 8589934592001))) /\
  _as_dt (VInt 253402300800000) = Err ValueError.
Proof.
  assert (H : _as_dt (VInt 8589934592001) = Ok (Some (utc_instant 8589934592000999)))
    by (vm_compute; reflexivity).
  split; [exact H|]. split.
  - rewrite H. intros E. inversion E.
  - vm_compute. reflexivity.
Qed.

(** C5, amended: an integer [t] of less than 2^33 seconds' worth of
    milliseconds either side of the epoch normalises to the UTC
    instant exactly [t] milliseconds after the epoch; 1700000000000
    normalises to 2023-11-14T22:13:20Z. *)
Theorem as_dt_epoch_millis (t : Z) :
  Z.abs t < 8589934592000 ->
  _as_dt (VInt t) = Ok (Some (utc_instant (1000 * t))) /\
  exists d, _as_dt (VInt 1700000000000) = Ok (Some d) /\
            tzinfo d = Some UTC /\
            fields_of d = mkCivil 2023 11 14 22 13 20 0.
Proof.
  intros Ht. split.
  - destruct (fromtimestamp_of_millis t) as (u & Hu & Hd).
    { change (2 ^ 33) with 8589934592. lia. }
    unfold _as_dt, py_int, truediv. cbn [bind]. rewrite Hu. cbn [bind].
    rewrite Hd. reflexivity.
  - exists (utc_instant 1700000000000000). split; [|split].
    + vm_compute. reflexivity.
    + reflexivity.
    + vm_compute. reflexivity.
Qed.

Lemma as_dt_epoch_millis_witness :
  Z.abs 1700000000000 < 8589934592000 /\
  _as_dt (VInt 1700000000000) = Ok (Some (utc_instant (1000 * 1700000000000))).
Proof.
  split; [reflexivity|].
  apply (as_dt_epoch_millis 1700000000000). reflexivity.
Defined.

(** ** The series builder *)

(** *** The dictionary *)

Lemma datetime_eqb_refl (a : datetime) : datetime_eqb a a = true.
Proof. unfold datetime_eqb. destruct (tzinfo a); apply Z.eqb_refl. Qed.

Lemma datetime_eqb_sym (a b : datetime) : datetime_eqb a b = datetime_eqb b a.
Proof.
  unfold datetime_eqb. destruct (tzinfo a), (tzinfo b);
    try reflexivity; apply Z.eqb_sym.
Qed.

Lemma datetime_eqb_trans (a b c : datetime) :
  datetime_eqb a b = true -> datetime_eqb b c = true -> datetime_eqb a c = true.
Proof.
  unfold datetime_eqb. destruct (tzinfo a), (tzinfo b), (tzinfo c);
    try discriminate; rewrite !Z.eqb_eq; lia.
Qed.

(** Equal timestamps are interchangeable as keys. *)
Lemma datetime_eqb_congr (a b c : datetime) :
  datetime_eqb a b = true -> datetime_eqb c a = datetime_eqb c b.
Proof.
  intros Hab.
  destruct (datetime_eqb c a) eqn:Eca, (datetime_eqb c b) eqn:Ecb;
    try reflexivity.
  - rewrite (datetime_eqb_trans c a b Eca Hab) in Ecb. discriminate.
  - rewrite datetime_eqb_sym in Hab.
    rewrite (datetime_eqb_trans c b a Ecb Hab) in Eca. discriminate.
Qed.

Lemma dict_get_set (d : series) (k0 k : datetime) (v : Z) :
  dict_get (dict_set d k0 v) k
  = if datetime_eqb k0 k then Some v else dict_get d k.
Proof.
  induction d as [|[e v'] rest IH]; simpl.
  - reflexivity.
  - destruct (datetime_eqb e k0) eqn:Ee0; simpl.
    + rewrite (datetime_eqb_sym k0 k), <- (datetime_eqb_congr e k0 k Ee0).
      rewrite (datetime_eqb_sym k e). destruct (datetime_eqb e k); reflexivity.
    + destruct (datetime_eqb e k) eqn:Eek; [|exact IH].
      destruct (datetime_eqb k0 k) eqn:E0k; [|reflexivity].
      rewrite datetime_eqb_sym in E0k.
      rewrite (datetime_eqb_congr k k0 e E0k), Ee0 in Eek. discriminate.
Qed.

Lemma dict_get_congr (d : series) (a b : datetime) :
  datetime_eqb a b = true -> dict_get d a = dict_get d b.
Proof.
  intros Hab. induction d as [|[e v] rest IH]; simpl; [reflexivity|].
  rewrite (datetime_eqb_congr a b e Hab), IH. reflexivity.
Qed.

Lemma dict_set_not_empty (d : series) (k : datetime) (v : Z) :
  dict_set d k v <> [].
Proof.
  destruct d as [|[e v'] rest]; simpl; [discriminate|].
  destruct (datetime_eqb e k); discriminate.
Qed.

Lemma dict_set_In (d : series) (k0 k : datetime) (v0 v : Z) :
  In (k, v) (dict_set d k0 v0) ->
  In (k, v) d \/ (v = v0 /\ (k = k0 \/ exists v', In (k, v') d)).
Proof.
  induction d as [|[e v'] rest IH]; simpl.
  - intros [H|[]]. inversion H. right. split; [reflexivity|left; reflexivity].
  - destruct (datetime_eqb e k0); simpl.
    + intros [H|H].
      * inversion H; subst. right. split; [reflexivity|].
        right. exists v'. left. reflexivity.
      * left. right. exact H.
    + intros [H|H].
      * left. left. exact H.
      * destruct (IH H) as [Hin|[-> [->|[w Hw]]]].
        -- left. right. exact Hin.
        -- right. split; [reflexivity|left; reflexivity].
        -- right. split; [reflexivity|]. right. exists w. right. exact Hw.
Qed.

Lemma keys_distinct_set (d : series) (k : datetime) (v : Z) :
  keys_distinct d -> keys_distinct (dict_set d k v).
Proof.
  induction d as [|[e v'] rest IH]; simpl.
  - intros _. split; [reflexivity|exact I].
  - intros [Hfresh Hrest]. destruct (datetime_eqb e k) eqn:Eek; simpl.
    + split; assumption.
    + split; [|apply IH, Hrest].
      rewrite dict_get_set, datetime_eqb_sym, Eek. exact Hfresh.
Qed.

Lemma samples_at_absent (d : series) (k : datetime) :
  dict_get d k = None -> samples_at d k = [].
Proof.
  induction d as [|[e v] rest IH]; simpl; [reflexivity|].
  destruct (datetime_eqb e k); [discriminate|exact IH].
Qed.

Lemma keys_distinct_one_sample (d : series) (k : datetime) :
  keys_distinct d -> (List.length (samples_at d k) <= 1)%nat.
Proof.
  induction d as [|[e v] rest IH]; simpl; [lia|].
  intros [Hfresh Hrest]. destruct (datetime_eqb e k) eqn:Eek; [|apply IH, Hrest].
  simpl. fold (samples_at rest k).
  rewrite (samples_at_absent rest k); [simpl; lia|].
  rewrite <- (dict_get_congr rest e k Eek). exact Hfresh.
Qed.

(** *** One iteration *)

Lemma loop_body_filtered (st : locals) (rec : fit_record) :
  filtered_out rec -> loop_body st rec = Ok st.
Proof.
  unfold filtered_out, is_definition, is_record_message, loop_body.
  intros [->| ->]; [reflexivity|].
  destruct (truthy _); reflexivity.
Qed.

(** The ways an iteration can complete: the record is filtered out;
    or it passes and stores nothing; or it passes and stores a sample
    under what [ts] holds by then. *)
Lemma loop_body_inv (st st' : locals) (rec : fit_record) :
  loop_body st rec = Ok st' ->
  (filtered_out rec /\ st' = st) \/
  (is_definition rec = false /\ is_record_message rec = true /\
   exists raw hr cur,
     msg_value (message rec) "timestamp" = Ok raw /\
     msg_value (message rec) "heart_rate" = Ok hr /\
     assigned st raw cur /\
     (((cur = None \/ is_None hr = true) /\
       st' = mkLocals (hr_by_time st) (record_msgs st + 1)
                      (record_with_hr st) (Some cur)) \/
      (exists key n,
         cur = Some key /\ is_None hr = false /\ py_int hr = Ok n /\
         st' = mkLocals (dict_set (hr_by_time st) key n) (record_msgs st + 1)
                        (record_with_hr st + 1) (Some cur)))).
Proof.
  intros H.
  destruct (is_definition rec) eqn:Edef.
  { left. split; [left; exact Edef|].
    rewrite loop_body_filtered in H by (left; exact Edef). inversion H. reflexivity. }
  destruct (is_record_message rec) eqn:Erec.
  2:{ left. split; [right; exact Erec|].
      rewrite loop_body_filtered in H by (right; exact Erec). inversion H. reflexivity. }
  right. split; [reflexivity|]. split; [reflexivity|].
  unfold loop_body in H. unfold is_definition in Edef. unfold is_record_message in Erec.
  rewrite Edef, Erec in H. cbn [negb] in H.
  destruct (msg_value (message rec) "timestamp") as [raw|] eqn:Eraw; [|discriminate].
  cbn [bind] in H. exists raw.
  assert (Hts : exists ts',
             (if isinstance_int raw then d <- _as_dt raw ;; Ok (Some d)
              else Ok (ts st)) = Ok ts' /\
             (forall cur, ts' = Some cur -> assigned st raw cur)).
  { unfold assigned. destruct (isinstance_int raw).
    - destruct (_as_dt raw) as [d|]; [|discriminate].
      exists (Some d). split; [reflexivity|]. intros cur Hc. inversion Hc; subst.
      left. split; reflexivity.
    - exists (ts st). split; [reflexivity|]. intros cur Hc. right. split; [reflexivity|exact Hc]. }
  destruct Hts as (ts' & Ets & Hassigned). rewrite Ets in H. cbn [bind] in H.
  destruct (msg_value (message rec) "heart_rate") as [hr|] eqn:Ehr; [|discriminate].
  cbn [bind] in H. exists hr.
  destruct ts' as [cur|]; [|discriminate]. exists cur.
  split; [reflexivity|]. split; [reflexivity|]. split; [apply Hassigned; reflexivity|].
  destruct cur as [key|].
  - destruct (is_None hr) eqn:Enone.
    + left. inversion H. split; [right; reflexivity|reflexivity].
    + right. destruct (py_int hr) as [n|] eqn:En; [|discriminate].
      cbn [bind] in H. inversion H. exists key, n. repeat split; reflexivity.
  - left. inversion H. split; [left; reflexivity|reflexivity].
Qed.

(** A qualifying record stores its heart rate under its own
    timestamp. *)
Lemma loop_body_qualifies (st st' : locals) (rec : fit_record)
      (key : datetime) (n : Z) :
  qualifies rec key n -> loop_body st rec = Ok st' ->
  hr_by_time st' = dict_set (hr_by_time st) key n.
Proof.
  intros (Hdef & Hrec & raw & hr & Eraw & Hint & Edt & Ehr & Hnone & En) H.
  unfold loop_body in H. unfold is_definition in Hdef. unfold is_record_message in Hrec.
  rewrite Hdef, Hrec, Eraw in H. cbn [negb bind] in H.
  rewrite Hint, Edt in H. cbn [bind] in H.
  rewrite Ehr in H. cbn [bind] in H. rewrite Hnone, En in H. cbn [bind] in H.
  inversion H. reflexivity.
Qed.

(** *** The whole pass *)

Lemma run_loop_app (st : locals) (a b : list fit_record) :
  run_loop st (a ++ b) = (st' <- run_loop st a ;; run_loop st' b).
Proof.
  revert st. induction a as [|rec rest IH]; intros st; simpl; [reflexivity|].
  destruct (loop_body st rec) as [st1|]; simpl; [apply IH|reflexivity].
Qed.

Lemma run_loop_cons_inv (st st' : locals) (rec : fit_record) (rest : list fit_record) :
  run_loop st (rec :: rest) = Ok st' ->
  exists st1, loop_body st rec = Ok st1 /\ run_loop st1 rest = Ok st'.
Proof.
  simpl. destruct (loop_body st rec) as [st1|]; [|discriminate].
  intros H. exists st1. split; [reflexivity|exact H].
Qed.

Lemma run_loop_app_inv (st st' : locals) (a b : list fit_record) :
  run_loop st (a ++ b) = Ok st' ->
  exists st1, run_loop st a = Ok st1 /\ run_loop st1 b = Ok st'.
Proof.
  rewrite run_loop_app. destruct (run_loop st a) as [st1|]; [|discriminate].
  intros H. exists st1. split; [reflexivity|exact H].
Qed.

(** How the call ends, in terms of the pass. *)
Lemma extract_returns (records : list fit_record) (out : list string) (s : series) :
  extract_polar_hr_series records = (out, Ok s) ->
  exists st, run_loop initial_locals records = Ok st /\
             s = hr_by_time st /\ s <> [] /\ out = report st.
Proof.
  unfold extract_polar_hr_series.
  destruct (run_loop initial_locals records) as [st|]; [|discriminate].
  destruct (hr_by_time st) as [|e rest] eqn:E; [discriminate|].
  intros H. inversion H. exists st. unfold report. rewrite E.
  repeat split. discriminate.
Qed.

(** *** Invariants of the pass *)

Lemma loop_body_counted (st st' : locals) (rec : fit_record) :
  loop_body st rec = Ok st' -> counted st -> counted st'.
Proof.
  intros H [Hpos Hiff].
  destruct (loop_body_inv _ _ _ H)
    as [[_ ->]|(_ & _ & raw & hr & cur & _ & _ & _ & [[_ ->]|(key & n & _ & _ & _ & ->)])];
    unfold counted; simpl.
  - split; assumption.
  - split; assumption.
  - split; [lia|]. split; [lia|].
    intros E. destruct (dict_set_not_empty _ _ _ E).
Qed.

Lemma run_loop_counted (records : list fit_record) (st st' : locals) :
  run_loop st records = Ok st' -> counted st -> counted st'.
Proof.
  revert st. induction records as [|rec rest IH]; intros st H Hc.
  - inversion H; subst. exact Hc.
  - destruct (run_loop_cons_inv _ _ _ _ H) as (st1 & H1 & H2).
    eapply IH; [exact H2|]. eapply loop_body_counted; eassumption.
Qed.

Lemma initial_counted : counted initial_locals.
Proof. unfold counted. simpl. split; [lia|]. split; reflexivity. Qed.

Lemma run_loop_filtered (records : list fit_record) (st : locals) :
  Forall filtered_out records -> run_loop st records = Ok st.
Proof.
  induction 1 as [|rec rest Hrec _ IH]; simpl; [reflexivity|].
  rewrite (loop_body_filtered st rec Hrec). exact IH.
Qed.

(** Keys stay pairwise distinct. *)
Lemma run_loop_keys_distinct (records : list fit_record) (st st' : locals) :
  run_loop st records = Ok st' ->
  keys_distinct (hr_by_time st) -> keys_distinct (hr_by_time st').
Proof.
  revert st. induction records as [|rec rest IH]; intros st H Hd.
  - inversion H; subst. exact Hd.
  - destruct (run_loop_cons_inv _ _ _ _ H) as (st1 & H1 & H2).
    apply (IH st1 H2).
    destruct (loop_body_inv _ _ _ H1)
      as [[_ ->]|(_ & _ & raw & hr & cur & _ & _ & _ & [[_ ->]|(key & n & _ & _ & _ & ->)])];
      simpl; [assumption|assumption|].
    apply keys_distinct_set, Hd.
Qed.

Lemma normalised_from_more (a b : list fit_record) (k : datetime) :
  normalised_from a k \/ normalised_from b k -> normalised_from (a ++ b) k.
Proof.
  intros [(rec & raw & Hin & H)|(rec & raw & Hin & H)];
    exists rec, raw; (split; [apply in_or_app; auto|exact H]).
Qed.

Lemma coerced_from_more (a b : list fit_record) (n : Z) :
  coerced_from a n \/ coerced_from b n -> coerced_from (a ++ b) n.
Proof.
  intros [(rec & hr & Hin & H)|(rec & hr & Hin & H)];
    exists rec, hr; (split; [apply in_or_app; auto|exact H]).
Qed.

Lemma loop_body_sourced (seen : list fit_record) (st st' : locals) (rec : fit_record) :
  loop_body st rec = Ok st' -> sourced seen st -> sourced (seen ++ [rec]) st'.
Proof.
  intros H [Hdict Hts].
  assert (Hold : forall k v, In (k, v) (hr_by_time st) ->
            normalised_from (seen ++ [rec]) k /\ coerced_from (seen ++ [rec]) v).
  { intros k v Hin. destruct (Hdict k v Hin).
    split; [apply normalised_from_more|apply coerced_from_more]; auto. }
  destruct (loop_body_inv _ _ _ H)
    as [[_ ->]|(_ & _ & raw & hr & cur & Eraw & Ehr & Has & Hcase)].
  { split; [exact Hold|].
    intros k Hk. apply normalised_from_more. left. apply Hts, Hk. }
  assert (Hcur : forall k, cur = Some k -> normalised_from (seen ++ [rec]) k).
  { intros k ->. apply normalised_from_more.
    destruct Has as [[Hint Edt]|[_ Est]].
    - right. exists rec, raw. repeat split; try assumption. left. reflexivity.
    - left. apply Hts, Est. }
  destruct Hcase as [[_ ->]|(key & n & -> & Hnone & En & ->)]; split; simpl.
  - exact Hold.
  - intros k Hk. apply Hcur. congruence.
  - intros k v Hin.
    destruct (dict_set_In _ _ _ _ _ Hin) as [Hin'|[-> Hk]]; [apply Hold, Hin'|].
    split.
    + destruct Hk as [->|[v' Hin']]; [apply Hcur; reflexivity|apply (Hold k v' Hin')].
    + apply coerced_from_more. right. exists rec, hr.
      repeat split; try assumption. left. reflexivity.
  - intros k Hk. apply Hcur. congruence.
Qed.

Lemma run_loop_sourced (records seen : list fit_record) (st st' : locals) :
  run_loop st records = Ok st' -> sourced seen st -> sourced (seen ++ records) st'.
Proof.
  revert seen st. induction records as [|rec rest IH]; intros seen st H Hs.
  - inversion H; subst. rewrite app_nil_r. exact Hs.
  - destruct (run_loop_cons_inv _ _ _ _ H) as (st1 & H1 & H2).
    replace (seen ++ rec :: rest)%list with ((seen ++ [rec]) ++ rest)%list
      by (rewrite <- app_assoc; reflexivity).
    apply (IH _ st1 H2). eapply loop_body_sourced; eassumption.
Qed.

Lemma initial_sourced : sourced [] initial_locals.
Proof. split; simpl; [intros k v []|intros k H; discriminate]. Qed.

(** Records that store elsewhere leave the entry at [key] alone. *)
Lemma loop_body_elsewhere (st st' : locals) (rec : fit_record) (key : datetime) :
  stores_elsewhere key rec -> loop_body st rec = Ok st' ->
  dict_get (hr_by_time st') key = dict_get (hr_by_time st) key.
Proof.
  intros [Hcarries Hother] H.
  destruct (loop_body_inv _ _ _ H)
    as [[_ ->]|(Hdef & Hrec & raw & hr & cur & Eraw & Ehr & Has
                & [[_ ->]|(k & n & -> & Hnone & En & ->)])];
    [reflexivity|reflexivity|].
  simpl. rewrite dict_get_set.
  destruct Hcarries as [[Hf|Hf]|(raw0 & Eraw0 & Hint)]; try congruence.
  rewrite Eraw in Eraw0. inversion Eraw0; subst raw0.
  destruct Has as [[_ Edt]|[Hnot _]]; [|congruence].
  rewrite (Hother k n); [reflexivity|].
  split; [exact Hdef|]. split; [exact Hrec|].
  exists raw, hr. repeat split; assumption.
Qed.

Lemma run_loop_elsewhere (records : list fit_record) (st st' : locals) (key : datetime) :
  Forall (stores_elsewhere key) records -> run_loop st records = Ok st' ->
  dict_get (hr_by_time st') key = dict_get (hr_by_time st) key.
Proof.
  intros Hall. revert st. induction Hall as [|rec rest Hrec _ IH]; intros st H.
  - inversion H. reflexivity.
  - destruct (run_loop_cons_inv _ _ _ _ H) as (st1 & H1 & H2).
    rewrite (IH st1 H2). eapply loop_body_elsewhere; eassumption.
Qed.

(** ** The claims on the series builder *)

(** C1: a record whose timestamp resolves to absent is not skipped.
    [ts] is assigned only when the resolved timestamp is an integer and
    keeps its value from one iteration to the next, so the heart rate
    130 of the second record is stored under the timestamp of the
    first, replacing its 120; and when no earlier record assigned
    [ts], reading it raises. *)
Theorem stale_timestamp_stores_sample :
  msg_value (message (data_record VNone (VInt 130))) "timestamp" = Ok VNone /\
  extract_polar_hr_series
    [data_record (VInt 1000) (VInt 120); data_record VNone (VInt 130)]
  = (["[Polar] record messages: 2"; "[Polar] records with HR: 2";
      "[Polar] HR samples extracted: 1"],
     Ok [(utc_instant 1000000, 130)]) /\
  extract_polar_hr_series [data_record VNone (VInt 130)]
  = ([], Err (UnboundLocalError "ts")).
Proof. split; [reflexivity|]. split; vm_compute; reflexivity. Qed.

(** C3: an input from which no sample can be extracted does not
    always end in the empty-result [RuntimeError].  The record below
    passes both filters and has neither a timestamp nor a heart rate,
    so it does not qualify; [ts] has not been assigned when line 94
    reads it (the defect of C1), the call ends in [UnboundLocalError]
    and the test for an empty result on line 100 is not reached.  The
    same happens when the message does not have the two fields at
    all. *)
Theorem unassigned_timestamp_preempts_empty_result :
  is_definition (data_record VNone VNone) = false /\
  is_record_message (data_record VNone VNone) = true /\
  msg_value (message (data_record VNone VNone)) "timestamp" = Ok VNone /\
  msg_value (message (data_record VNone VNone)) "heart_rate" = Ok VNone /\
  (forall k n, ~ qualifies (data_record VNone VNone) k n) /\
  extract_polar_hr_series [data_record VNone VNone]
  = ([], Err (UnboundLocalError "ts")) /\
  extract_polar_hr_series [data_record VNone VNone]
  <> ([], Err (RuntimeError empty_message)) /\
  extract_polar_hr_series
    [mkRecord (VObj [("is_definition", VBool false)])
              (VObj [("name", VStr "record"); ("fields", VList [])])]
  = ([], Err (UnboundLocalError "ts")).
Proof.
  split; [reflexivity|]. split; [reflexivity|].
  split; [reflexivity|]. split; [reflexivity|].
  split.
  { intros k n (_ & _ & raw & hr & Eraw & Eint & _).
    assert (E : raw = VNone) by (inversion Eraw; reflexivity).
    subst raw. discriminate Eint. }
  split; [vm_compute; reflexivity|].
  split; [vm_compute; discriminate|].
  vm_compute. reflexivity.
Qed.

(** C7: a record flagged as a definition record leaves every local of
    the loop as it was, whatever its message carries, so the call ends
    the same way with and without it. *)
Theorem definition_record_contributes_nothing (rec : fit_record) :
  is_definition rec = true ->
  (forall st, loop_body st rec = Ok st) /\
  (forall pre post,
     extract_polar_hr_series (pre ++ rec :: post)
     = extract_polar_hr_series (pre ++ post)).
Proof.
  intros Hdef.
  assert (Hstep : forall st, loop_body st rec = Ok st)
    by (intros st; apply loop_body_filtered; left; exact Hdef).
  split; [exact Hstep|].
  intros pre post. unfold extract_polar_hr_series.
  rewrite !run_loop_app. simpl.
  destruct (run_loop initial_locals pre) as [st|]; [|reflexivity].
  cbn [bind]. rewrite Hstep. reflexivity.
Qed.

Lemma definition_record_contributes_nothing_witness :
  is_definition definition_record = true /\
  extract_polar_hr_series
    ([data_record (VInt 1000) (VInt 120)] ++ definition_record
       :: [data_record (VInt 3000) (VInt 130)])
  = extract_polar_hr_series
      ([data_record (VInt 1000) (VInt 120)] ++ [data_record (VInt 3000) (VInt 130)]).
Proof.
  split; [reflexivity|].
  apply (proj2 (definition_record_contributes_nothing definition_record eq_refl)).
Defined.

Lemma data_record_qualifies (t : Z) (k : datetime) (n : Z) :
  _as_dt (VInt t) = Ok (Some k) ->
  qualifies (data_record (VInt t) (VInt n)) k n.
Proof.
  intros Hk. split; [reflexivity|]. split; [reflexivity|].
  exists (VInt t), (VInt n). repeat split. exact Hk.
Qed.

(** C6: the later of two qualifying records with the same timestamp
    does not always decide the value the series holds there.  The
    first two records below qualify and normalise to 00:00:01Z; the
    third passes the filters with a heart rate and no timestamp, so it
    does not qualify, yet [ts] still holds the second record's
    timestamp (the defect of C1) and line 98 stores its 130 there,
    replacing the 125 of the later qualifying record. *)
Theorem untimed_record_overrides_later_write :
  qualifies (data_record (VInt 1000) (VInt 120)) (utc_instant 1000000) 120 /\
  qualifies (data_record (VInt 1000) (VInt 125)) (utc_instant 1000000) 125 /\
  msg_value (message (data_record VNone (VInt 130))) "timestamp" = Ok VNone /\
  (forall k n, ~ qualifies (data_record VNone (VInt 130)) k n) /\
  extract_polar_hr_series
    [data_record (VInt 1000) (VInt 120); data_record (VInt 1000) (VInt 125);
     data_record VNone (VInt 130)]
  = (["[Polar] record messages: 3"; "[Polar] records with HR: 3";
      "[Polar] HR samples extracted: 1"],
     Ok [(utc_instant 1000000, 130)]) /\
  dict_get [(utc_instant 1000000, 130)] (utc_instant 1000000) = Some 130 /\
  dict_get [(utc_instant 1000000, 130)] (utc_instant 1000000) <> Some 125.
Proof.
  split; [apply data_record_qualifies; vm_compute; reflexivity|].
  split; [apply data_record_qualifies; vm_compute; reflexivity|].
  split; [reflexivity|].
  split.
  { intros k n (_ & _ & raw & hr & Eraw & Eint & _).
    assert (E : raw = VNone) by (inversion Eraw; reflexivity).
    subst raw. discriminate Eint. }
  split; [vm_compute; reflexivity|].
  split; [reflexivity|discriminate].
Qed.

(** C9: every key of the returned series is a timezone-aware UTC
    timestamp that the normaliser produced from the integer timestamp
    of one of the records, and every value is the integer that [int]
    made of the heart rate of one of the records. *)
Theorem series_keys_and_values
        (records : list fit_record) (out : list string) (s : series)
        (k : datetime) (v : Z) :
  extract_polar_hr_series records = (out, Ok s) ->
  In (k, v) s ->
  tzinfo k = Some UTC /\ normalised_from records k /\ coerced_from records v.
Proof.
  intros H Hin.
  destruct (extract_returns _ _ _ H) as (st & Hrun & -> & _ & _).
  destruct (run_loop_sourced _ [] _ _ Hrun initial_sourced) as [Hdict _].
  destruct (Hdict k v Hin) as [Hk Hv]. split; [|split; assumption].
  destruct Hk as (rec & raw & _ & _ & Hint & Edt).
  destruct (as_dt_int_aware raw (Some k) Hint Edt) as (d & Ed & Hd).
  inversion Ed. exact Hd.
Qed.

Lemma series_keys_and_values_witness :
  tzinfo (utc_instant 1000000) = Some UTC /\
  normalised_from [data_record (VInt 1000) (VInt 120);
                   data_record VNone (VFloat (Float64.of_Z 130))]
                  (utc_instant 1000000) /\
  coerced_from [data_record (VInt 1000) (VInt 120);
                data_record VNone (VFloat (Float64.of_Z 130))] 130.
Proof.
  apply (series_keys_and_values
           [data_record (VInt 1000) (VInt 120);
            data_record VNone (VFloat (Float64.of_Z 130))]
           ["[Polar] record messages: 2"; "[Polar] records with HR: 2";
            "[Polar] HR samples extracted: 1"]
           [(utc_instant 1000000, 130)]).
  - vm_compute. reflexivity.
  - left. reflexivity.
Defined.

(** C10: a call that ends in an error, the empty-result error
    included, has printed nothing; the three counters are printed
    exactly when the call returns, and it then returns a non-empty
    series. *)
Theorem counters_reported_iff_returns (records : list fit_record) :
  (forall e, snd (extract_polar_hr_series records) = Err e ->
             fst (extract_polar_hr_series records) = []) /\
  (forall s, snd (extract_polar_hr_series records) = Ok s ->
             s <> [] /\
             exists st, run_loop initial_locals records = Ok st /\
                        fst (extract_polar_hr_series records) = report st) /\
  (fst (extract_polar_hr_series records) <> [] <->
   exists s, snd (extract_polar_hr_series records) = Ok s /\ s <> []).
Proof.
  unfold extract_polar_hr_series.
  destruct (run_loop initial_locals records) as [st|e0]; simpl.
  - destruct (hr_by_time st) as [|entry rest] eqn:E; simpl.
    + split; [reflexivity|]. split; [discriminate|].
      split; [intros H; destruct (H eq_refl)|intros (s & Hs & _); discriminate].
    + split; [discriminate|]. split.
      * intros s Hs. inversion Hs. split; [discriminate|].
        exists st. split; [reflexivity|]. unfold report. rewrite E. reflexivity.
      * split; [|discriminate]. intros _. eexists. split; [reflexivity|discriminate].
  - split; [reflexivity|]. split; [discriminate|].
    split; [intros H; destruct (H eq_refl)|intros (s & Hs & _); discriminate].
Qed.

Lemma counters_reported_iff_returns_witness :
  fst (extract_polar_hr_series [definition_record; data_record (VInt 2000) VNone])
  = [] /\
  [(utc_instant 1000000, 120)] <> [].
Proof.
  split.
  - apply (proj1 (counters_reported_iff_returns
                    [definition_record; data_record (VInt 2000) VNone])
             (RuntimeError empty_message)).
    vm_compute. reflexivity.
  - apply (proj1 (proj2 (counters_reported_iff_returns
                           [data_record (VInt 1000) (VInt 120)]))
             [(utc_instant 1000000, 120)]).
    vm_compute. reflexivity.
Defined.

(** * Further properties *)

(** ** More on the timestamp normaliser *)

(** What [_as_dt] does on anything but [None] and a timestamp. *)
Lemma as_dt_convert (x : value) (r : option datetime) :
  is_None x = false -> (forall d, x <> VDatetime d) ->
  _as_dt x = Ok r ->
  exists i f d, py_int x = Ok i /\ truediv i 1000 = Ok f /\
                fromtimestamp_utc f = Ok d /\ r = Some d.
Proof.
  intros Hnone Hdt H.
  assert (Hb : (i <- py_int x ;; f <- truediv i 1000 ;;
                d <- fromtimestamp_utc f ;; Ok (Some d)) = Ok r).
  { destruct x; try exact H; try discriminate. destruct (Hdt d eq_refl). }
  clear H. destruct (py_int x) as [i|]; [|discriminate]. cbn [bind] in Hb.
  destruct (truediv i 1000) as [f|] eqn:Ef; [|discriminate]. cbn [bind] in Hb.
  destruct (fromtimestamp_utc f) as [d|] eqn:Ed; [|discriminate]. cbn [bind] in Hb.
  inversion Hb. exists i, f, d. repeat split; assumption.
Qed.

(** The result of [_as_dt] carries a timezone. *)
Lemma as_dt_returns_aware (x : value) (d : datetime) :
  _as_dt x = Ok (Some d) -> exists tz, tzinfo d = Some tz.
Proof.
  intros H. destruct x as [| b | z | f | s | d0 | items | attrs].
  1: discriminate.
  5: { simpl in H. inversion H. destruct d0 as [w [tz|]]; simpl;
       [exists tz|exists UTC]; reflexivity. }
  all: (apply as_dt_convert in H; [|reflexivity|intros d0; discriminate]).
  all: destruct H as (i & f' & d' & _ & _ & Hd & E).
  all: (inversion E; subst d'; exists UTC; eapply fromtimestamp_utc_aware, Hd).
Qed.

(** Whatever its input, [_as_dt] never returns a naive timestamp, and
    a timestamp given as input keeps its wall-clock reading, in its
    own timezone if it has one and in UTC if it has none. *)
Theorem as_dt_result_aware (x : value) (d : datetime) :
  _as_dt x = Ok (Some d) ->
  (exists tz, tzinfo d = Some tz) /\
  (forall d0, x = VDatetime d0 ->
     wall_us d = wall_us d0 /\
     tzinfo d = match tzinfo d0 with Some tz => Some tz | None => Some UTC end).
Proof.
  intros H. split; [apply (as_dt_returns_aware x d H)|].
  intros d0 ->. simpl in H. inversion H.
  destruct d0 as [w [tz|]]; simpl; split; reflexivity.
Qed.

Lemma as_dt_result_aware_witness :
  (exists tz, tzinfo (utc_instant 5000000) = Some tz) /\
  (forall d0, VDatetime (mkDatetime 5000000 None) = VDatetime d0 ->
     wall_us (utc_instant 5000000) = wall_us d0 /\
     tzinfo (utc_instant 5000000)
     = match tzinfo d0 with Some tz => Some tz | None => Some UTC end).
Proof.
  apply (as_dt_result_aware (VDatetime (mkDatetime 5000000 None))).
  reflexivity.
Defined.

(** Normalising is idempotent on every input on which it returns:
    [None], timestamps naive or aware, and whatever [int] accepts. *)
Theorem as_dt_idempotent_on_all (x : value) (r : option datetime) :
  _as_dt x = Ok r -> _as_dt (of_optional r) = Ok r.
Proof.
  intros H. destruct r as [d|]; [|reflexivity].
  destruct (as_dt_returns_aware x d H) as [tz Htz].
  destruct d as [w tz']. simpl in Htz. subst tz'. reflexivity.
Qed.

Lemma as_dt_idempotent_on_all_witness :
  _as_dt (of_optional (Some (utc_instant 5000000))) = Ok (Some (utc_instant 5000000)) /\
  _as_dt (of_optional (Some (utc_instant 1500000))) = Ok (Some (utc_instant 1500000)).
Proof.
  split.
  - apply (as_dt_idempotent_on_all (VDatetime (mkDatetime 5000000 None))).
    reflexivity.
  - apply (as_dt_idempotent_on_all (VStr " 1_500 ")).
    vm_compute. reflexivity.
Defined.

(** [fromtimestamp] on any finite double: it decides on the whole
    number [T] of microseconds nearest to the double (up to the
    rounding of the product with 1e6), whose quotient by 1e6 is the
    second it range-checks. *)
Lemma fromtimestamp_utc_spec (u : Z) :
  exists T,
    2 * Z.abs (T * Float64.U - 1000000 * u) <= Float64.U + 2 ^ 1041 /\
    fromtimestamp_utc (Float64.Finite u)
    = match check_seconds (T / 1000000) with
      | Some e => Err e
      | None => Ok (mkDatetime T (Some UTC))
      end.
Proof.
  pose proof U_pos as HU.
  unfold fromtimestamp_utc, Float64.modf, Float64.mul, Float64.of_Z.
  pose proof (Z.quot_rem' u Float64.U) as Hqr.
  pose proof (Z.rem_bound_abs u Float64.U ltac:(lia)) as Hfr.
  set (ip := Z.quot u Float64.U) in *. set (fr := Z.rem u Float64.U) in *.
  rewrite (Z.abs_eq Float64.U) in Hfr by lia.
  destruct (nearest_error (fr * (1000000 * Float64.U)) (Float64.U * Float64.U) 1093)
    as (p & Hp & Ep); [nia|lia| |].
  { change (1093 + 1) with (1074 + 20). rewrite pow2_above_U by lia.
    rewrite Z.abs_mul, (Z.abs_eq (1000000 * Float64.U)) by lia.
    change (2 ^ 20) with 1048576. nia. }
  rewrite Hp. change (1093 - 52) with 1041 in Ep.
  pose proof (round_half_even_error p Float64.U HU) as HR.
  set (R := Float64.round_half_even p Float64.U) in *.
  pose proof (U_split 33 ltac:(lia)) as H33. change (1074 - 33) with 1041 in H33.
  change (2 ^ 33) with 8589934592 in H33.
  assert (H1041 : 0 < 2 ^ 1041) by (apply Z.pow_pos_nonneg; lia).
  assert (Ep' : 2 * Z.abs (p - fr * 1000000) <= 2 ^ 1041).
  { replace (p * (Float64.U * Float64.U) - fr * (1000000 * Float64.U) * Float64.U)
      with ((p - fr * 1000000) * (Float64.U * Float64.U)) in Ep by ring.
    rewrite Z.abs_mul, (Z.abs_eq (Float64.U * Float64.U)) in Ep by nia.
    assert (0 < Float64.U * Float64.U) by nia.
    apply (Z.mul_le_mono_pos_r _ _ (Float64.U * Float64.U)); lia. }
  assert (HRr : -1000000 <= R <= 1000000).
  { assert (Hlt : Z.abs R * Float64.U < 1000001 * Float64.U);
      [|apply Z.mul_lt_mono_pos_r in Hlt; lia].
    rewrite <- (Z.abs_eq Float64.U) at 1 by lia. rewrite <- Z.abs_mul. lia. }
  exists (ip * 1000000 + R). split.
  { replace ((ip * 1000000 + R) * Float64.U - 1000000 * u)
      with ((R * Float64.U - p) + (p - fr * 1000000))
      by (rewrite Hqr at 1; ring).
    lia. }
  destruct (1000000 <=? R) eqn:E1.
  - apply Z.leb_le in E1.
    replace ((ip * 1000000 + R) / 1000000) with (ip + 1)
      by (apply (Z.div_unique _ _ _ (R - 1000000)); lia).
    destruct (check_seconds (ip + 1)); [reflexivity|]. do 2 f_equal. lia.
  - apply Z.leb_gt in E1. destruct (R <? 0) eqn:E2.
    + apply Z.ltb_lt in E2.
      replace ((ip * 1000000 + R) / 1000000) with (ip - 1)
        by (apply (Z.div_unique _ _ _ (R + 1000000)); lia).
      destruct (check_seconds (ip - 1)); [reflexivity|]. do 2 f_equal. lia.
    + apply Z.ltb_ge in E2.
      replace ((ip * 1000000 + R) / 1000000) with ip
        by (apply (Z.div_unique _ _ _ R); lia).
      destruct (check_seconds ip); reflexivity.
Qed.

Lemma as_dt_int_unfold (t : Z) :
  _as_dt (VInt t)
  = match Float64.nearest t 1000 with
    | Some u => d <- fromtimestamp_utc (Float64.Finite u) ;; Ok (Some d)
    | None => Err OverflowError
    end.
Proof.
  unfold _as_dt, py_int, truediv. cbn [bind].
  destruct (Float64.nearest t 1000); reflexivity.
Qed.

(** From 2^52 units on, the nearest double is within a 2^-53 part of
    the quotient. *)
Lemma nearest_relative (n d u : Z) :
  0 < d -> 2 ^ 52 <= Z.abs n * Float64.U / d ->
  Float64.nearest n d = Some u ->
  2 ^ 53 * Z.abs (u * d - n * Float64.U) <= Z.abs n * Float64.U.
Proof.
  intros Hd Hbig. unfold Float64.nearest, Float64.grid.
  set (a := Z.abs n) in *. set (q := a * Float64.U / d) in *.
  assert (Hq : 0 < q) by (assert (0 < 2 ^ 52) by (apply Z.pow_pos_nonneg; lia); lia).
  pose proof (Z.log2_spec q Hq) as [Hlo _].
  assert (HL : 52 <= Z.log2 q).
  { change 52 with (Z.log2 (2 ^ 52)) at 1. apply Z.log2_le_mono. exact Hbig. }
  rewrite Z.max_r by lia.
  set (g := 2 ^ (Z.log2 q - 52)).
  assert (Hg : 0 < g) by (apply Z.pow_pos_nonneg; lia).
  assert (Hg52 : g * 2 ^ 52 = 2 ^ Z.log2 q).
  { unfold g. rewrite <- Z.pow_add_r by lia. f_equal. lia. }
  pose proof (round_half_even_error (a * Float64.U) (d * g) ltac:(nia)) as Hm.
  set (m := Float64.round_half_even (a * Float64.U) (d * g)) in *.
  assert (Hqd : q * d <= a * Float64.U).
  { unfold q. rewrite Z.mul_comm. apply Z.mul_div_le. exact Hd. }
  destruct (2 ^ 1024 * Float64.U <=? m * g); [discriminate|].
  intros E. inversion E as [Eu]. clear E.
  assert (Hn : n = Z.sgn n * a) by (unfold a; lia).
  replace (Z.sgn n * (m * g) * d - n * Float64.U)
    with (Z.sgn n * (m * (d * g) - a * Float64.U))
    by (rewrite Hn at 3; ring).
  rewrite Z.abs_mul.
  assert (Hs : Z.abs (Z.sgn n) <= 1) by lia.
  assert (Hdg : d * (g * 2 ^ 52) <= a * Float64.U) by (rewrite Hg52; nia).
  change (2 ^ 53) with (2 * 2 ^ 52).
  assert (H52 : 0 < 2 ^ 52) by (apply Z.pow_pos_nonneg; lia).
  set (e := Z.abs (m * (d * g) - a * Float64.U)) in *.
  assert (He : 0 <= e) by (unfold e; lia).
  assert (2 * 2 ^ 52 * e <= d * g * 2 ^ 52) by nia.
  nia.
Qed.

(** Inside the years 1..9999 a millisecond count always normalises,
    to within 15 microseconds of itself. *)
Lemma as_dt_in_range (t : Z) :
  in_datetime_range t ->
  exists d, _as_dt (VInt t) = Ok (Some d) /\
            tzinfo d = Some UTC /\
            Z.abs (wall_us d - 1000 * t) <= 15.
Proof.
  unfold in_datetime_range, MIN_SECONDS, MAX_SECONDS. intros Ht.
  destruct (Z.eq_dec t (-62135596800000)) as [->|Hne].
  { exists (utc_instant (-62135596800000000)). split; [vm_compute; reflexivity|].
    split; [reflexivity|simpl; lia]. }
  pose proof U_pos as HU.
  destruct (nearest_error t 1000 1111) as (u & Hu & Eu); [lia|lia| |].
  { change (1111 + 1) with (1074 + 38). rewrite pow2_above_U by lia.
    change (2 ^ 38) with 274877906944. nia. }
  change (1111 - 52) with 1059 in Eu.
  destruct (fromtimestamp_utc_spec u) as (T & HT & Hres).
  pose proof (U_split 15 ltac:(lia)) as H15. change (1074 - 15) with 1059 in H15.
  pose proof (U_split 33 ltac:(lia)) as H33. change (1074 - 33) with 1041 in H33.
  change (2 ^ 15) with 32768 in H15. change (2 ^ 33) with 8589934592 in H33.
  assert (H1041 : 0 < 2 ^ 1041) by (apply Z.pow_pos_nonneg; lia).
  assert (Hnear : Z.abs (T - 1000 * t) <= 15).
  { assert (Hlt : Z.abs (T - 1000 * t) * Float64.U < 16 * Float64.U);
      [|apply Z.mul_lt_mono_pos_r in Hlt; lia].
    rewrite <- (Z.abs_eq Float64.U) at 1 by lia. rewrite <- Z.abs_mul.
    replace ((T - 1000 * t) * Float64.U)
      with ((T * Float64.U - 1000000 * u) + 1000 * (u * 1000 - t * Float64.U))
      by ring.
    lia. }
  exists (mkDatetime T (Some UTC)).
  rewrite as_dt_int_unfold, Hu, Hres.
  assert (Hsec : -62135596800 <= T / 1000000 <= 253402300799)
    by (Z.div_mod_to_equations; lia).
  rewrite (check_seconds_ok (T / 1000000))
    by (unfold MIN_SECONDS, MAX_SECONDS; lia).
  split; [reflexivity|]. split; [reflexivity|exact Hnear].
Qed.

Lemma nearest_relative_millis (t u : Z) :
  1000 <= Z.abs t -> Float64.nearest t 1000 = Some u ->
  2 ^ 53 * Z.abs (u * 1000 - t * Float64.U) <= Z.abs t * Float64.U.
Proof.
  intros Ht Hu. apply nearest_relative; [lia| |exact Hu].
  pose proof U_pos as HU.
  pose proof (U_split 52 ltac:(lia)) as H52.
  assert (0 < 2 ^ (1074 - 52)) by (apply Z.pow_pos_nonneg; lia).
  assert (0 < 2 ^ 52) by (apply Z.pow_pos_nonneg; lia).
  apply Z.div_le_lower_bound; [lia|]. nia.
Qed.

(** Outside the years 1..9999 a millisecond count never normalises. *)
Lemma as_dt_out_of_range (t : Z) :
  ~ in_datetime_range t -> exists e, _as_dt (VInt t) = Err e.
Proof.
  unfold in_datetime_range, MIN_SECONDS, MAX_SECONDS. intros Hout.
  destruct (Z.eq_dec t 253402300800000) as [->|Hne].
  { exists ValueError. vm_compute. reflexivity. }
  rewrite as_dt_int_unfold.
  destruct (Float64.nearest t 1000) as [u|] eqn:Hu; [|eexists; reflexivity].
  pose proof U_pos as HU.
  pose proof (nearest_relative_millis t u ltac:(lia) Hu) as Hrel.
  destruct (fromtimestamp_utc_spec u) as (T & HT & Hres).
  rewrite Hres.
  assert (Hout' : T / 1000000 < MIN_SECONDS \/ MAX_SECONDS < T / 1000000);
    [|destruct (check_seconds_out _ Hout') as [e ->]; exists e; reflexivity].
  unfold MIN_SECONDS, MAX_SECONDS.
  pose proof (U_split 33 ltac:(lia)) as H33. change (1074 - 33) with 1041 in H33.
  change (2 ^ 33) with 8589934592 in H33.
  assert (H1041 : 0 < 2 ^ 1041) by (apply Z.pow_pos_nonneg; lia).
  change (2 ^ 53) with 9007199254740992 in Hrel.
  destruct (Z_lt_le_dec t 0) as [Hneg|Hpos].
  - left.
    assert (HtU : t * Float64.U <= -62135596800001 * Float64.U)
      by (apply Z.mul_le_mono_nonneg_r; lia).
    assert (Hlt : T * Float64.U < -62135596800000000 * Float64.U).
    { rewrite (Z.abs_neq t) in Hrel by lia. lia. }
    apply Z.mul_lt_mono_pos_r in Hlt; [|lia].
    Z.div_mod_to_equations; lia.
  - right.
    assert (HtU : 253402300800001 * Float64.U <= t * Float64.U)
      by (apply Z.mul_le_mono_nonneg_r; lia).
    assert (Hlt : 253402300799999999 * Float64.U < T * Float64.U).
    { rewrite (Z.abs_eq t) in Hrel by lia. lia. }
    apply Z.mul_lt_mono_pos_r in Hlt; [|lia].
    Z.div_mod_to_equations; lia.
Qed.

Lemma in_datetime_range_dec (t : Z) :
  in_datetime_range t \/ ~ in_datetime_range t.
Proof. unfold in_datetime_range, MIN_SECONDS, MAX_SECONDS. lia. Qed.

Lemma as_dt_int_returns (t : Z) (d : datetime) :
  _as_dt (VInt t) = Ok (Some d) ->
  in_datetime_range t /\ tzinfo d = Some UTC /\ Z.abs (wall_us d - 1000 * t) <= 15.
Proof.
  intros H. destruct (in_datetime_range_dec t) as [Hin|Hout].
  - split; [exact Hin|].
    destruct (as_dt_in_range t Hin) as (d' & Hd' & Htz & Hnear).
    rewrite H in Hd'. inversion Hd'. subst d'. split; assumption.
  - destruct (as_dt_out_of_range t Hout) as [e E]. rewrite E in H. discriminate.
Qed.

(** [_as_dt] returns for an integer exactly when the integer, taken
    as milliseconds since the epoch, falls in the years 1..9999; any
    other integer raises (which of the out-of-range errors of
    [fromtimestamp] is not told apart here); and what it returns is a
    UTC timestamp within 15 microseconds of that many milliseconds. *)
Theorem as_dt_returns_iff_in_range (t : Z) :
  (in_datetime_range t <-> exists d, _as_dt (VInt t) = Ok (Some d)) /\
  (~ in_datetime_range t -> exists e, _as_dt (VInt t) = Err e) /\
  (forall d, _as_dt (VInt t) = Ok (Some d) ->
             tzinfo d = Some UTC /\ Z.abs (wall_us d - 1000 * t) <= 15).
Proof.
  split; [split|split].
  - intros Hin. destruct (as_dt_in_range t Hin) as (d & Hd & _).
    exists d. exact Hd.
  - intros [d Hd]. apply (as_dt_int_returns t d Hd).
  - apply as_dt_out_of_range.
  - intros d Hd. apply (as_dt_int_returns t d Hd).
Qed.

Lemma as_dt_returns_iff_in_range_witness :
  (exists d, _as_dt (VInt 200000000000001) = Ok (Some d)) /\
  (exists e, _as_dt (VInt (10 ^ 18)) = Err e) /\
  (tzinfo (utc_instant 200000000000001007) = Some UTC /\
   Z.abs (wall_us (utc_instant 200000000000001007) - 1000 * 200000000000001) <= 15).
Proof.
  split; [|split].
  - apply (proj1 (proj1 (as_dt_returns_iff_in_range 200000000000001))).
    unfold in_datetime_range, MIN_SECONDS, MAX_SECONDS. lia.
  - apply (proj1 (proj2 (as_dt_returns_iff_in_range (10 ^ 18)))).
    unfold in_datetime_range, MIN_SECONDS, MAX_SECONDS. lia.
  - apply (proj2 (proj2 (as_dt_returns_iff_in_range 200000000000001))).
    vm_compute. reflexivity.
Defined.

(** Distinct millisecond counts never normalise to equal timestamps:
    the normaliser is strictly increasing on the integers it accepts,
    so two integer timestamps share a key of the series only when
    they are the same integer. *)
Theorem as_dt_strictly_increasing (t1 t2 : Z) (d1 d2 : datetime) :
  t1 < t2 ->
  _as_dt (VInt t1) = Ok (Some d1) ->
  _as_dt (VInt t2) = Ok (Some d2) ->
  wall_us d1 < wall_us d2 /\ datetime_eqb d1 d2 = false.
Proof.
  intros Hlt H1 H2.
  destruct (as_dt_int_returns _ _ H1) as (_ & Htz1 & Hn1).
  destruct (as_dt_int_returns _ _ H2) as (_ & Htz2 & Hn2).
  assert (Hw : wall_us d1 < wall_us d2) by lia.
  split; [exact Hw|].
  unfold datetime_eqb. rewrite Htz1, Htz2. apply Z.eqb_neq. unfold UTC. lia.
Qed.

Lemma as_dt_strictly_increasing_witness :
  wall_us (utc_instant 253402300799997986) < wall_us (utc_instant 253402300799998993) /\
  datetime_eqb (utc_instant 253402300799997986) (utc_instant 253402300799998993)
  = false.
Proof.
  apply (as_dt_strictly_increasing 253402300799998 253402300799999).
  - lia.
  - vm_compute. reflexivity.
  - vm_compute. reflexivity.
Defined.

(** ** More on the field resolvers *)

Lemma eq_str_spec (v : value) (s : string) : eq_str v s = true <-> v = VStr s.
Proof.
  destruct v; simpl; try (split; [discriminate|intros E; discriminate]).
  rewrite String.eqb_eq. split; [intros ->; reflexivity|intros E; inversion E; reflexivity].
Qed.

(** The two loops over the field collection find the same entry. *)
Lemma scan_fields_find_field (items : list value) (name : string) :
  scan_fields items name
  = (let f := find_field items name in
     if is_None f then Ok VNone
     else match py_getattr f "value" with
          | Some v => Ok v
          | None => Ok (getattr_default f "raw_value" VNone)
          end).
Proof.
  induction items as [|g rest IH]; simpl; [reflexivity|].
  destruct (eq_str (getattr_default g "name" VNone) name) eqn:E; [|exact IH].
  rewrite (named_not_None name g E).
  unfold hasattr, attr, getattr_default.
  destruct (py_getattr g "value"); [reflexivity|].
  destruct (py_getattr g "raw_value"); reflexivity.
Qed.


(** The entry found is the first one of that name. *)
Lemma find_field_first (items : list value) (name : string) :
  (Forall (fun g => eq_str (getattr_default g "name" VNone) name = false) items /\
   find_field items name = VNone) \/
  (exists pre f post,
     items = (pre ++ f :: post)%list /\
     Forall (fun g => eq_str (getattr_default g "name" VNone) name = false) pre /\
     eq_str (getattr_default f "name" VNone) name = true /\
     find_field items name = f).
Proof.
  induction items as [|g rest IH]; simpl.
  - left. split; [constructor|reflexivity].
  - destruct (eq_str (getattr_default g "name" VNone) name) eqn:E.
    + right. exists [], g, rest. repeat split; [constructor|exact E].
    + destruct IH as [[Hall Hnone]|(pre & f & post & -> & Hpre & Hf & Hfind)].
      * left. split; [constructor; assumption|exact Hnone].
      * right. exists (g :: pre), f, post.
        repeat split; [constructor; assumption|exact Hf|exact Hfind].
Qed.

Lemma msg_value_via_fields (msg fields : value) (name : string) :
  py_getattr msg name = None ->
  py_getattr msg "fields" = Some fields ->
  msg_value msg name = (items <- py_iter fields ;; scan_fields items name) /\
  value_from_msg msg name
  = (items <- py_iter fields ;;
     let f := find_field items name in
     if is_None f then Ok VNone else Ok (getattr_default f "value" VNone)).
Proof.
  intros Hn Hf. unfold msg_value, value_from_msg, _field_value_from_fields, field_by_name.
  rewrite (getattr_not_None _ _ _ Hf), (hasattr_false _ _ Hn).
  destruct (hasattr_true _ _ _ Hf) as [-> ->]. cbn [negb orb bind].
  split; [reflexivity|]. destruct (py_iter fields); reflexivity.
Qed.

Lemma msg_value_no_fields (msg : value) (name : string) :
  py_getattr msg name = None ->
  py_getattr msg "fields" = None ->
  msg_value msg name = Ok VNone /\ value_from_msg msg name = Ok VNone.
Proof.
  intros Hn Hf. split.
  - apply msg_value_absent. right. split; [exact Hn|left; exact Hf].
  - apply value_from_msg_absent. right. split; [exact Hn|left; exact Hf].
Qed.

(** Neither resolver raises, except for the [TypeError] of iterating a
    [fields] attribute that is not iterable, and that only when the
    field is not a direct attribute of the message. *)
Theorem resolvers_raise_only_on_bad_fields (msg : value) (name : string) (e : exn) :
  msg_value msg name = Err e \/ value_from_msg msg name = Err e ->
  e = TypeError /\
  py_getattr msg name = None /\
  exists fields, py_getattr msg "fields" = Some fields /\
                 py_iter fields = Err TypeError.
Proof.
  intros H. destruct (py_getattr msg name) as [v|] eqn:Hn.
  { rewrite (msg_value_direct _ _ _ Hn), (value_from_msg_direct _ _ _ Hn) in H.
    destruct H; discriminate. }
  destruct (py_getattr msg "fields") as [fields|] eqn:Hf.
  2:{ destruct (msg_value_no_fields _ _ Hn Hf) as [E1 E2].
      rewrite E1, E2 in H. destruct H; discriminate. }
  destruct (msg_value_via_fields _ _ _ Hn Hf) as [E1 E2]. rewrite E1, E2 in H.
  destruct (py_iter fields) as [items|e'] eqn:Hit.
  - cbn [bind] in H. rewrite scan_fields_find_field in H. cbv zeta in H.
    destruct (is_None (find_field items name)); [destruct H; discriminate|].
    destruct (py_getattr (find_field items name) "value"); destruct H; discriminate.
  - assert (He : e' = TypeError)
      by (destruct fields; simpl in Hit; inversion Hit; reflexivity).
    subst e'. cbn [bind] in H.
    assert (e = TypeError) by (destruct H as [H|H]; inversion H; reflexivity).
    subst e. split; [reflexivity|]. split; [reflexivity|].
    exists fields. split; [reflexivity|exact Hit].
Qed.

Lemma resolvers_raise_only_on_bad_fields_witness :
  TypeError = TypeError /\
  py_getattr (VObj [("name", VStr "record"); ("fields", VNone)]) "power" = None /\
  exists fields,
    py_getattr (VObj [("name", VStr "record"); ("fields", VNone)]) "fields"
    = Some fields /\
    py_iter fields = Err TypeError.
Proof.
  apply (resolvers_raise_only_on_bad_fields
           (VObj [("name", VStr "record"); ("fields", VNone)]) "power" TypeError).
  left. reflexivity.
Defined.

(** Where the two resolvers return, they return the same value, but
    for two cases: a direct attribute of the message that wraps its
    value (only [value_from_msg] unwraps it), and a message without
    the attribute whose field collection has, as its first entry of
    that name, one with a [.raw_value] and no [.value] (only
    [msg_value] falls back to the raw value, [value_from_msg] returns
    [None]). *)
Theorem resolvers_agree_or_differ (msg : value) (name : string) (v w : value) :
  msg_value msg name = Ok v ->
  value_from_msg msg name = Ok w ->
  v = w \/
  (py_getattr msg name = Some v /\ py_getattr v "value" = Some w) \/
  (py_getattr msg name = None /\ w = VNone /\
   exists fields items pre f post,
     py_getattr msg "fields" = Some fields /\
     py_iter fields = Ok items /\
     items = (pre ++ f :: post)%list /\
     Forall (fun g => eq_str (getattr_default g "name" VNone) name = false) pre /\
     eq_str (getattr_default f "name" VNone) name = true /\
     py_getattr f "value" = None /\
     py_getattr f "raw_value" = Some v).
Proof.
  intros Hv Hw. destruct (py_getattr msg name) as [x|] eqn:Hn.
  { rewrite (msg_value_direct _ _ _ Hn) in Hv.
    rewrite (value_from_msg_direct _ _ _ Hn) in Hw.
    inversion Hv; subst x. inversion Hw as [Ew]. unfold getattr_default.
    destruct (py_getattr v "value") as [inner|] eqn:Einner.
    - right. left. split; reflexivity.
    - left. reflexivity. }
  destruct (py_getattr msg "fields") as [fields|] eqn:Hf.
  2:{ destruct (msg_value_no_fields _ _ Hn Hf) as [E1 E2].
      rewrite E1 in Hv. rewrite E2 in Hw. left. congruence. }
  destruct (msg_value_via_fields _ _ _ Hn Hf) as [E1 E2].
  rewrite E1 in Hv. rewrite E2 in Hw.
  destruct (py_iter fields) as [items|] eqn:Hit; [|discriminate].
  cbn [bind] in Hv, Hw. rewrite scan_fields_find_field in Hv. cbv zeta in Hv, Hw.
  destruct (find_field_first items name)
    as [[_ Hnone]|(pre & f & post & Hitems & Hpre & Hm & Hfind)].
  { rewrite Hnone in Hv, Hw. simpl in Hv, Hw. left. congruence. }
  rewrite Hfind in Hv, Hw. rewrite (named_not_None name f Hm) in Hv, Hw.
  unfold getattr_default in Hv, Hw.
  destruct (py_getattr f "value") as [x|] eqn:Eval; [left; congruence|].
  destruct (py_getattr f "raw_value") as [raw|] eqn:Eraw; [|left; congruence].
  right. right. split; [reflexivity|]. split; [congruence|].
  exists fields, items, pre, f, post. inversion Hv; subst raw.
  repeat split; assumption.
Qed.

Lemma resolvers_agree_or_differ_witness :
  VInt 120 = VNone \/
  (py_getattr raw_only_message "heart_rate" = Some (VInt 120) /\
   py_getattr (VInt 120) "value" = Some VNone) \/
  (py_getattr raw_only_message "heart_rate" = None /\ VNone = VNone /\
   exists fields items pre f post,
     py_getattr raw_only_message "fields" = Some fields /\
     py_iter fields = Ok items /\
     items = (pre ++ f :: post)%list /\
     Forall (fun g => eq_str (getattr_default g "name" VNone) "heart_rate" = false)
            pre /\
     eq_str (getattr_default f "name" VNone) "heart_rate" = true /\
     py_getattr f "value" = None /\
     py_getattr f "raw_value" = Some (VInt 120)).
Proof.
  apply (resolvers_agree_or_differ raw_only_message "heart_rate"); reflexivity.
Defined.

(** ** The inspection tool *)

(** [field_by_name] returns the first entry of the field list whose
    name is the one asked for, as the entry itself, and [None] exactly
    when no entry has that name; direct attributes of the message play
    no part. *)
Theorem field_by_name_first_entry (msg : value) (items : list value) (name : string) :
  py_getattr msg "fields" = Some (VList items) ->
  (Forall (fun g => eq_str (getattr_default g "name" VNone) name = false) items /\
   field_by_name msg name = Ok VNone) \/
  (exists pre f post,
     items = (pre ++ f :: post)%list /\
     Forall (fun g => eq_str (getattr_default g "name" VNone) name = false) pre /\
     getattr_default f "name" VNone = VStr name /\
     is_None f = false /\
     field_by_name msg name = Ok f).
Proof.
  intros Hf.
  assert (E : field_by_name msg name = Ok (find_field items name)).
  { unfold field_by_name. rewrite (getattr_not_None _ _ _ Hf).
    destruct (hasattr_true _ _ _ Hf) as [-> ->]. reflexivity. }
  rewrite E.
  destruct (find_field_first items name)
    as [[Hall ->]|(pre & f & post & Hitems & Hpre & Hm & ->)].
  - left. split; [exact Hall|reflexivity].
  - right. exists pre, f, post. repeat split; try assumption.
    + apply eq_str_spec, Hm.
    + apply (named_not_None name f Hm).
Qed.

Lemma field_by_name_first_entry_witness :
  (Forall (fun g => eq_str (getattr_default g "name" VNone) "heart_rate" = false)
     [VObj [("name", VStr "timestamp"); ("value", VInt 1000)];
      VObj [("name", VStr "heart_rate"); ("value", VInt 120); ("raw_value", VInt 7)]] /\
   field_by_name listed_message "heart_rate" = Ok VNone) \/
  (exists pre f post,
     [VObj [("name", VStr "timestamp"); ("value", VInt 1000)];
      VObj [("name", VStr "heart_rate"); ("value", VInt 120); ("raw_value", VInt 7)]]
     = (pre ++ f :: post)%list /\
     Forall (fun g => eq_str (getattr_default g "name" VNone) "heart_rate" = false) pre /\
     getattr_default f "name" VNone = VStr "heart_rate" /\
     is_None f = false /\
     field_by_name listed_message "heart_rate" = Ok f).
Proof.
  apply (field_by_name_first_entry listed_message). reflexivity.
Defined.

Lemma attr_getattr_default (v x default : value) (a : string) :
  attr v a = Ok x -> getattr_default v a default = x.
Proof.
  unfold attr, getattr_default. destruct (py_getattr v a); intros H; inversion H.
  reflexivity.
Qed.

Lemma attr_error (v : value) (a : string) (e : exn) :
  attr v a = Err e -> e = AttributeError a /\ py_getattr v a = None.
Proof.
  unfold attr. destruct (py_getattr v a); intros H; inversion H.
  split; reflexivity.
Qed.

(** What [main_rec0] does with the record at the head. *)
Lemma main_rec0_cons (r : fit_record) (rest : list fit_record) :
  (filtered_out r /\ main_rec0 (r :: rest) = main_rec0 rest) \/
  (passes r /\ main_rec0 (r :: rest) = Selected r) \/
  (exists e, main_rec0 (r :: rest) = Raised e /\
     ((e = AttributeError "is_definition" /\
       py_getattr (header r) "is_definition" = None) \/
      (e = AttributeError "name" /\ py_getattr (message r) "name" = None))).
Proof.
  simpl.
  destruct (attr (header r) "is_definition") as [flag|e] eqn:Ed.
  2:{ right. right. exists e. split; [reflexivity|]. left. apply attr_error, Ed. }
  pose proof (attr_getattr_default _ _ (VBool false) _ Ed) as Hd.
  destruct (truthy flag) eqn:Et.
  { left. split; [|reflexivity]. left. unfold is_definition. rewrite Hd. exact Et. }
  destruct (attr (message r) "name") as [n|e] eqn:En.
  2:{ right. right. exists e. split; [reflexivity|]. right. apply attr_error, En. }
  pose proof (attr_getattr_default _ _ VNone _ En) as Hn.
  destruct (eq_str n "record") eqn:Em.
  - right. left. split; [|reflexivity]. split.
    + unfold is_definition. rewrite Hd. exact Et.
    + unfold is_record_message. rewrite Hn. exact Em.
  - left. split; [|reflexivity]. right. unfold is_record_message. rewrite Hn. exact Em.
Qed.

Lemma main_rec0_stop (records : list fit_record) :
  main_rec0 records = StopIteration -> Forall filtered_out records.
Proof.
  induction records as [|r rest IH]; [constructor|].
  destruct (main_rec0_cons r rest) as [[Hf ->]|[[_ ->]|(e & -> & _)]];
    try discriminate.
  intros H. constructor; [exact Hf|apply IH, H].
Qed.

Lemma main_rec0_selected (records : list fit_record) (rec : fit_record) :
  main_rec0 records = Selected rec ->
  exists pre post,
    records = (pre ++ rec :: post)%list /\ Forall filtered_out pre /\ passes rec.
Proof.
  induction records as [|r rest IH]; [discriminate|].
  destruct (main_rec0_cons r rest) as [[Hf ->]|[[Hp ->]|(e & -> & _)]];
    try discriminate.
  - intros H. destruct (IH H) as (pre & post & -> & Hpre & Hp).
    exists (r :: pre), post. repeat split; try apply Hp. constructor; assumption.
  - intros H. inversion H; subst r. exists [], rest.
    repeat split; try apply Hp. constructor.
Qed.

Lemma main_rec0_raised (records : list fit_record) (e : exn) :
  main_rec0 records = Raised e ->
  exists pre rec post,
    records = (pre ++ rec :: post)%list /\
    Forall filtered_out pre /\
    ((e = AttributeError "is_definition" /\
      py_getattr (header rec) "is_definition" = None) \/
     (e = AttributeError "name" /\ py_getattr (message rec) "name" = None)).
Proof.
  induction records as [|r rest IH]; [discriminate|].
  destruct (main_rec0_cons r rest) as [[Hf ->]|[[_ ->]|(e' & -> & He)]];
    try discriminate.
  - intros H. destruct (IH H) as (pre & rec & post & -> & Hpre & Hcase).
    exists (r :: pre), rec, post. repeat split; try assumption.
    constructor; assumption.
  - intros H. inversion H; subst e'. exists [], r, rest.
    repeat split; [constructor|exact He].
Qed.

(** The record [main] of the inspection tool picks is the first one
    that passes the two filters of the series builder, every record
    before it being filtered out; [next] raises [StopIteration] only
    on inputs whose records are all filtered out, on which the series
    builder ends in its empty-result error; and the only other way out
    is the [AttributeError] of a header without [is_definition] or a
    message without [name]. *)
Theorem main_rec0_first_passing (records : list fit_record) :
  (forall rec, main_rec0 records = Selected rec ->
     exists pre post,
       records = (pre ++ rec :: post)%list /\
       Forall filtered_out pre /\ passes rec) /\
  (main_rec0 records = StopIteration ->
     Forall filtered_out records /\
     extract_polar_hr_series records = ([], Err (RuntimeError empty_message))) /\
  (forall e, main_rec0 records = Raised e ->
     exists pre rec post,
       records = (pre ++ rec :: post)%list /\
       Forall filtered_out pre /\
       ((e = AttributeError "is_definition" /\
         py_getattr (header rec) "is_definition" = None) \/
        (e = AttributeError "name" /\ py_getattr (message rec) "name" = None))).
Proof.
  split; [|split].
  - apply main_rec0_selected.
  - intros H. pose proof (main_rec0_stop records H) as Hall.
    split; [exact Hall|]. unfold extract_polar_hr_series.
    rewrite (run_loop_filtered records initial_locals Hall). reflexivity.
  - apply main_rec0_raised.
Qed.

Lemma main_rec0_first_passing_witness :
  (exists pre post,
     [definition_record; data_record (VInt 1000) (VInt 120)]
     = (pre ++ data_record (VInt 1000) (VInt 120) :: post)%list /\
     Forall filtered_out pre /\ passes (data_record (VInt 1000) (VInt 120))) /\
  (Forall filtered_out [definition_record] /\
   extract_polar_hr_series [definition_record]
   = ([], Err (RuntimeError empty_message))) /\
  (exists pre rec post,
     [definition_record; mkRecord (VObj [("is_definition", VBool false)]) VNone]
     = (pre ++ rec :: post)%list /\
     Forall filtered_out pre /\
     ((AttributeError "name" = AttributeError "is_definition" /\
       py_getattr (header rec) "is_definition" = None) \/
      (AttributeError "name" = AttributeError "name" /\
       py_getattr (message rec) "name" = None))).
Proof.
  split; [|split].
  - apply (proj1 (main_rec0_first_passing
                    [definition_record; data_record (VInt 1000) (VInt 120)])).
    reflexivity.
  - apply (proj1 (proj2 (main_rec0_first_passing [definition_record]))).
    reflexivity.
  - apply (proj2 (proj2 (main_rec0_first_passing
             [definition_record;
              mkRecord (VObj [("is_definition", VBool false)]) VNone]))).
    reflexivity.
Defined.





(** ** More on the series builder *)

(** *** Single iterations *)

Lemma loop_body_passes (st : locals) (rec : fit_record) :
  passes rec ->
  loop_body st rec
  = (raw_ts <- msg_value (message rec) "timestamp" ;;
     ts' <- (if isinstance_int raw_ts
             then (d <- _as_dt raw_ts ;; Ok (Some d))
             else Ok (ts st)) ;;
     hr <- msg_value (message rec) "heart_rate" ;;
     match ts' with
     | None => Err (UnboundLocalError "ts")
     | Some None =>
         Ok (mkLocals (hr_by_time st) (record_msgs st + 1) (record_with_hr st) ts')
     | Some (Some key) =>
         if is_None hr
         then Ok (mkLocals (hr_by_time st) (record_msgs st + 1)
                           (record_with_hr st) ts')
         else
           n <- py_int hr ;;
           Ok (mkLocals (dict_set (hr_by_time st) key n) (record_msgs st + 1)
                        (record_with_hr st + 1) ts')
     end).
Proof.
  intros [Hdef Hrec]. unfold loop_body.
  unfold is_definition in Hdef. unfold is_record_message in Hrec.
  rewrite Hdef, Hrec. reflexivity.
Qed.

Lemma loop_body_sample (st : locals) (rec : fit_record) (key : datetime) (n : Z) :
  qualifies rec key n ->
  loop_body st rec
  = Ok (mkLocals (dict_set (hr_by_time st) key n) (record_msgs st + 1)
                 (record_with_hr st + 1) (Some (Some key))).
Proof.
  intros (Hdef & Hrec & raw & hr & Eraw & Hint & Edt & Ehr & Hnone & En).
  rewrite loop_body_passes by (split; assumption).
  rewrite Eraw. cbn [bind]. rewrite Hint, Edt. cbn [bind].
  rewrite Ehr. cbn [bind]. rewrite Hnone, En. reflexivity.
Qed.

Lemma loop_body_timestamp_only (st : locals) (rec : fit_record) :
  timestamp_only rec ->
  exists k,
    loop_body st rec
    = Ok (mkLocals (hr_by_time st) (record_msgs st + 1) (record_with_hr st)
                   (Some (Some k))).
Proof.
  intros (Hp & raw & k & Eraw & Hint & Edt & Ehr). exists k.
  rewrite (loop_body_passes st rec Hp).
  rewrite Eraw. cbn [bind]. rewrite Hint, Edt. cbn [bind].
  rewrite Ehr. reflexivity.
Qed.


(** A record whose message is not named "record" (a message of any
    other type, or no message at all) leaves every local of the loop
    as it was, so the call ends the same way with and without it. *)
Theorem other_message_contributes_nothing (rec : fit_record) :
  is_record_message rec = false ->
  (forall st, loop_body st rec = Ok st) /\
  (forall pre post,
     extract_polar_hr_series (pre ++ rec :: post)
     = extract_polar_hr_series (pre ++ post)).
Proof.
  intros Hrec.
  assert (Hstep : forall st, loop_body st rec = Ok st)
    by (intros st; apply loop_body_filtered; right; exact Hrec).
  split; [exact Hstep|].
  intros pre post. unfold extract_polar_hr_series.
  rewrite !run_loop_app. simpl.
  destruct (run_loop initial_locals pre) as [st|]; [|reflexivity].
  cbn [bind]. rewrite Hstep. reflexivity.
Qed.

Lemma other_message_contributes_nothing_witness :
  extract_polar_hr_series
    ([data_record (VInt 1000) (VInt 120)]
       ++ mkRecord (VObj [("is_definition", VBool false)])
                   (VObj [("name", VStr "session"); ("timestamp", VInt 5);
                          ("heart_rate", VInt 77)])
       :: [data_record (VInt 3000) (VInt 130)])
  = extract_polar_hr_series
      ([data_record (VInt 1000) (VInt 120)] ++ [data_record (VInt 3000) (VInt 130)]).
Proof.
  apply (proj2 (other_message_contributes_nothing
                  (mkRecord (VObj [("is_definition", VBool false)])
                            (VObj [("name", VStr "session"); ("timestamp", VInt 5);
                                   ("heart_rate", VInt 77)]))
                  eq_refl)).
Defined.

(** A passing record whose integer timestamp the normaliser rejects,
    or whose heart rate [int] rejects, ends the whole call in that
    error: nothing is printed, the samples of the records before it
    are not returned, and the records after it are not looked at. *)
Theorem bad_record_aborts
        (pre post : list fit_record) (rec : fit_record) (st : locals) (e : exn) :
  run_loop initial_locals pre = Ok st ->
  passes rec ->
  (exists raw,
     msg_value (message rec) "timestamp" = Ok raw /\
     isinstance_int raw = true /\ _as_dt raw = Err e) \/
  (exists raw k hr,
     msg_value (message rec) "timestamp" = Ok raw /\
     isinstance_int raw = true /\ _as_dt raw = Ok (Some k) /\
     msg_value (message rec) "heart_rate" = Ok hr /\
     is_None hr = false /\ py_int hr = Err e) ->
  extract_polar_hr_series (pre ++ rec :: post) = ([], Err e).
Proof.
  intros Hpre Hp Hbad.
  assert (Hstep : loop_body st rec = Err e).
  { rewrite (loop_body_passes st rec Hp).
    destruct Hbad as [(raw & Eraw & Hint & Edt)
                     |(raw & k & hr & Eraw & Hint & Edt & Ehr & Hnone & En)];
      rewrite Eraw; cbn [bind]; rewrite Hint, Edt; cbn [bind]; [reflexivity|].
    rewrite Ehr. cbn [bind]. rewrite Hnone, En. reflexivity. }
  unfold extract_polar_hr_series. rewrite run_loop_app, Hpre. simpl.
  rewrite Hstep. reflexivity.
Qed.

Lemma bad_record_aborts_witness :
  extract_polar_hr_series
    ([data_record (VInt 1000) (VInt 120)]
       ++ data_record (VInt 2000) (VStr "n/a") :: [data_record (VInt 3000) (VInt 130)])
  = ([], Err ValueError) /\
  extract_polar_hr_series
    ([data_record (VInt 1000) (VInt 120)]
       ++ data_record (VInt 253402300800000) (VInt 125) :: [])
  = ([], Err ValueError).
Proof.
  split.
  - apply (bad_record_aborts [data_record (VInt 1000) (VInt 120)]
             [data_record (VInt 3000) (VInt 130)]
             (data_record (VInt 2000) (VStr "n/a"))
             (mkLocals [(utc_instant 1000000, 120)] 1 1
                       (Some (Some (utc_instant 1000000))))).
    + vm_compute. reflexivity.
    + split; reflexivity.
    + right. exists (VInt 2000), (utc_instant 2000000), (VStr "n/a").
      repeat split; vm_compute; reflexivity.
  - apply (bad_record_aborts [data_record (VInt 1000) (VInt 120)] []
             (data_record (VInt 253402300800000) (VInt 125))
             (mkLocals [(utc_instant 1000000, 120)] 1 1
                       (Some (Some (utc_instant 1000000))))).
    + vm_compute. reflexivity.
    + split; reflexivity.
    + left. exists (VInt 253402300800000).
      repeat split; vm_compute; reflexivity.
Defined.

(** The first record to pass the filters must carry an integer
    timestamp: if it does not, whatever its heart rate, the call ends
    in [UnboundLocalError] for [ts]. *)
Theorem first_record_without_int_timestamp_raises
        (pre post : list fit_record) (rec : fit_record) (raw hr : value) :
  Forall filtered_out pre ->
  passes rec ->
  msg_value (message rec) "timestamp" = Ok raw ->
  isinstance_int raw = false ->
  msg_value (message rec) "heart_rate" = Ok hr ->
  extract_polar_hr_series (pre ++ rec :: post)
  = ([], Err (UnboundLocalError "ts")).
Proof.
  intros Hpre Hp Eraw Hint Ehr.
  unfold extract_polar_hr_series.
  rewrite run_loop_app, (run_loop_filtered pre initial_locals Hpre). simpl.
  rewrite (loop_body_passes initial_locals rec Hp).
  rewrite Eraw. cbn [bind]. rewrite Hint. cbn [bind]. rewrite Ehr. reflexivity.
Qed.

Lemma first_record_without_int_timestamp_raises_witness :
  extract_polar_hr_series
    ([definition_record]
       ++ data_record (VDatetime (utc_instant 1000000)) VNone
       :: [data_record (VInt 3000) (VInt 130)])
  = ([], Err (UnboundLocalError "ts")).
Proof.
  apply (first_record_without_int_timestamp_raises
           [definition_record] [data_record (VInt 3000) (VInt 130)]
           (data_record (VDatetime (utc_instant 1000000)) VNone)
           (VDatetime (utc_instant 1000000)) VNone).
  - apply Forall_cons; [left; reflexivity|apply Forall_nil].
  - split; reflexivity.
  - reflexivity.
  - reflexivity.
  - reflexivity.
Defined.



(** *** The counters *)

Lemma dict_set_length (d : series) (k : datetime) (v : Z) :
  (List.length d <= List.length (dict_set d k v) <= S (List.length d))%nat.
Proof.
  induction d as [|[e v'] rest IH]; simpl; [lia|].
  destruct (datetime_eqb e k); simpl; lia.
Qed.

Lemma passesb_passes (rec : fit_record) : passesb rec = true <-> passes rec.
Proof.
  unfold passesb, passes. rewrite andb_true_iff, negb_true_iff. reflexivity.
Qed.

Lemma passesb_filtered (rec : fit_record) : passesb rec = false <-> filtered_out rec.
Proof.
  unfold passesb, filtered_out.
  destruct (is_definition rec), (is_record_message rec); simpl;
    split; intros H; try reflexivity; try discriminate; auto;
    destruct H; discriminate.
Qed.

(** The three counters after a pass: messages counted are the records
    that pass the filters, and samples never outnumber the records
    counted as having one, nor these the messages counted. *)
Lemma run_loop_counters (records : list fit_record) (st st' : locals) :
  run_loop st records = Ok st' ->
  record_msgs st' = record_msgs st + Z.of_nat (List.length (filter passesb records)) /\
  (Z.of_nat (List.length (hr_by_time st)) <= record_with_hr st <= record_msgs st ->
   Z.of_nat (List.length (hr_by_time st')) <= record_with_hr st' <= record_msgs st').
Proof.
  revert st. induction records as [|rec rest IH]; intros st H.
  - inversion H; subst. simpl. split; [lia|auto].
  - destruct (run_loop_cons_inv _ _ _ _ H) as (st1 & H1 & H2).
    destruct (IH st1 H2) as [Hm Hord]. cbn [filter].
    destruct (loop_body_inv _ _ _ H1)
      as [[Hf ->]|(Hdef & Hrec & raw & hr & cur & _ & _ & _ & Hcase)].
    + rewrite (proj2 (passesb_filtered rec) Hf). split; assumption.
    + rewrite (proj2 (passesb_passes rec) (conj Hdef Hrec)). cbn [List.length].
      destruct Hcase as [[_ ->]|(key & n & _ & _ & _ & ->)]; simpl in *.
      * split; [lia|]. intros Hst. apply Hord. lia.
      * split; [lia|]. intros Hst. apply Hord.
        pose proof (dict_set_length (hr_by_time st) key n). lia.
Qed.

(** When the call returns, the three numbers it printed are those of
    the final locals: the messages counted are exactly the records
    that pass both filters, and
    [1 <= samples <= records with HR <= record messages <= records]. *)
Theorem counters_ordered
        (records : list fit_record) (out : list string) (s : series) :
  extract_polar_hr_series records = (out, Ok s) ->
  exists st,
    out = report st /\ hr_by_time st = s /\
    record_msgs st = Z.of_nat (List.length (filter passesb records)) /\
    1 <= Z.of_nat (List.length s) <= record_with_hr st /\
    record_with_hr st <= record_msgs st <= Z.of_nat (List.length records).
Proof.
  intros H. destruct (extract_returns _ _ _ H) as (st & Hrun & -> & Hne & ->).
  exists st. split; [reflexivity|]. split; [reflexivity|].
  destruct (run_loop_counters _ _ _ Hrun) as [Hm Hord].
  simpl in Hm, Hord. specialize (Hord ltac:(lia)).
  pose proof (filter_length_le passesb records) as Hlen.
  split; [exact Hm|].
  destruct (hr_by_time st) as [|e rest]; [destruct (Hne eq_refl)|].
  cbn [List.length] in *. lia.
Qed.

Lemma counters_ordered_witness :
  exists st,
    ["[Polar] record messages: 3"; "[Polar] records with HR: 3";
     "[Polar] HR samples extracted: 2"] = report st /\
    hr_by_time st = [(utc_instant 1000000, 125); (utc_instant 2000000, 90)] /\
    record_msgs st
    = Z.of_nat (List.length
        (filter passesb
           [definition_record; data_record (VInt 1000) (VInt 120);
            data_record (VInt 1000) (VInt 125); data_record (VInt 2000) (VInt 90)])) /\
    1 <= Z.of_nat (List.length [(utc_instant 1000000, 125); (utc_instant 2000000, 90)])
      <= record_with_hr st /\
    record_with_hr st <= record_msgs st
      <= Z.of_nat (List.length
           [definition_record; data_record (VInt 1000) (VInt 120);
            data_record (VInt 1000) (VInt 125); data_record (VInt 2000) (VInt 90)]).
Proof.
  apply (counters_ordered
           [definition_record; data_record (VInt 1000) (VInt 120);
            data_record (VInt 1000) (VInt 125); data_record (VInt 2000) (VInt 90)]).
  vm_compute. reflexivity.
Defined.

(** *** Clean input *)

Lemma run_loop_clean (records : list fit_record) (samples : list (datetime * Z)) (m : Z) :
  clean_pass records samples m ->
  forall st, exists st',
    run_loop st records = Ok st' /\
    hr_by_time st' = store_all (hr_by_time st) samples /\
    record_msgs st' = record_msgs st + m /\
    record_with_hr st' = record_with_hr st + Z.of_nat (List.length samples).
Proof.
  induction 1 as [|rec rest samples m Hf _ IH
                  |rec rest samples m Ht _ IH
                  |rec rest k n samples m Hq _ IH]; intros st.
  - exists st. simpl. repeat split; lia.
  - destruct (IH st) as (st' & Hrun & Hd & Hm & Hw). exists st'.
    simpl. rewrite (loop_body_filtered st rec Hf). cbn [bind].
    repeat split; assumption.
  - destruct (loop_body_timestamp_only st rec Ht) as [k Hstep].
    destruct (IH (mkLocals (hr_by_time st) (record_msgs st + 1) (record_with_hr st)
                           (Some (Some k))))
      as (st' & Hrun & Hd & Hm & Hw).
    exists st'. simpl in *. rewrite Hstep. cbn [bind].
    repeat split; try assumption. lia.
  - destruct (IH (mkLocals (dict_set (hr_by_time st) k n) (record_msgs st + 1)
                           (record_with_hr st + 1) (Some (Some k))))
      as (st' & Hrun & Hd & Hm & Hw).
    exists st'. simpl in *. rewrite (loop_body_sample st rec k n Hq). cbn [bind].
    repeat split; try assumption; lia.
Qed.

Lemma store_all_not_empty (d : series) (samples : list (datetime * Z)) :
  d <> [] \/ samples <> [] -> store_all d samples <> [].
Proof.
  revert d. induction samples as [|[k n] rest IH]; intros d H; simpl.
  - destruct H as [H|H]; [exact H|destruct (H eq_refl)].
  - apply IH. left. apply dict_set_not_empty.
Qed.

Lemma dict_get_app_none (a b : series) (k : datetime) :
  dict_get (a ++ b)%list k = None -> dict_get a k = None /\ dict_get b k = None.
Proof.
  induction a as [|[e v] rest IH]; simpl; [auto|].
  destruct (datetime_eqb e k); [discriminate|exact IH].
Qed.

Lemma dict_set_fresh (d : series) (k : datetime) (v : Z) :
  dict_get d k = None -> dict_set d k v = (d ++ [(k, v)])%list.
Proof.
  induction d as [|[e v'] rest IH]; simpl; [reflexivity|].
  destruct (datetime_eqb e k); [discriminate|].
  intros H. rewrite (IH H). reflexivity.
Qed.

Lemma keys_distinct_fresh (acc rest : series) (k : datetime) (v : Z) :
  keys_distinct (acc ++ (k, v) :: rest)%list -> dict_get acc k = None.
Proof.
  induction acc as [|[e ve] acc' IH]; simpl; [reflexivity|].
  intros [Hfresh Hrest].
  destruct (dict_get_app_none _ _ _ Hfresh) as [_ Hk]. simpl in Hk.
  rewrite datetime_eqb_sym.
  destruct (datetime_eqb k e); [discriminate|]. apply IH, Hrest.
Qed.

Lemma store_all_distinct (acc samples : series) :
  keys_distinct (acc ++ samples)%list -> store_all acc samples = (acc ++ samples)%list.
Proof.
  revert acc. induction samples as [|[k n] rest IH]; intros acc H; simpl.
  - rewrite app_nil_r. reflexivity.
  - rewrite (dict_set_fresh acc k n (keys_distinct_fresh _ _ _ _ H)).
    rewrite IH; rewrite <- app_assoc; [reflexivity|exact H].
Qed.

(** On an input whose records are each filtered out, or carry a usable
    timestamp and no heart rate, or qualify, with at least one that
    qualifies, the call returns the samples of the qualifying records
    assigned in source order and prints the number of passing records,
    the number of qualifying records and the number of entries; when
    the timestamps of the samples are pairwise distinct, the series is
    the list of samples itself, in source order. *)
Theorem clean_input_extracts
        (records : list fit_record) (samples : list (datetime * Z)) (m : Z) :
  clean_pass records samples m ->
  samples <> [] ->
  extract_polar_hr_series records
  = (["[Polar] record messages: " ++ string_of_Z m;
      "[Polar] records with HR: " ++ string_of_Z (Z.of_nat (List.length samples));
      "[Polar] HR samples extracted: "
        ++ string_of_Z (Z.of_nat (List.length (store_all [] samples)))],
     Ok (store_all [] samples)) /\
  (keys_distinct samples -> store_all [] samples = samples).
Proof.
  intros Hclean Hne. split; [|apply (store_all_distinct [] samples)].
  destruct (run_loop_clean _ _ _ Hclean initial_locals) as (st & Hrun & Hd & Hm & Hw).
  simpl in Hd, Hm, Hw.
  unfold extract_polar_hr_series. rewrite Hrun.
  pose proof (store_all_not_empty [] samples (or_intror Hne)) as Hne'.
  rewrite Hd, Hm, Hw.
  destruct (store_all [] samples) as [|e rest]; [destruct (Hne' eq_refl)|].
  reflexivity.
Qed.

Lemma clean_input_extracts_witness :
  extract_polar_hr_series
    [definition_record; data_record (VInt 1000) (VInt 120);
     data_record (VInt 2000) VNone; data_record (VInt 3000) (VInt 130)]
  = (["[Polar] record messages: " ++ string_of_Z 3;
      "[Polar] records with HR: "
        ++ string_of_Z (Z.of_nat (List.length
             [(utc_instant 1000000, 120); (utc_instant 3000000, 130)]));
      "[Polar] HR samples extracted: "
        ++ string_of_Z (Z.of_nat (List.length
             (store_all [] [(utc_instant 1000000, 120); (utc_instant 3000000, 130)])))],
     Ok (store_all [] [(utc_instant 1000000, 120); (utc_instant 3000000, 130)])) /\
  (keys_distinct [(utc_instant 1000000, 120); (utc_instant 3000000, 130)] ->
   store_all [] [(utc_instant 1000000, 120); (utc_instant 3000000, 130)]
   = [(utc_instant 1000000, 120); (utc_instant 3000000, 130)]).
Proof.
  apply (clean_input_extracts
           [definition_record; data_record (VInt 1000) (VInt 120);
            data_record (VInt 2000) VNone; data_record (VInt 3000) (VInt 130)]
           [(utc_instant 1000000, 120); (utc_instant 3000000, 130)] 3).
  - apply clean_filtered; [left; reflexivity|].
    apply (clean_sample _ _ _ _ _ 2);
      [apply data_record_qualifies; vm_compute; reflexivity|].
    apply (clean_timestamp_only _ _ _ 1).
    { split; [split; reflexivity|].
      exists (VInt 2000), (utc_instant 2000000).
      repeat split; vm_compute; reflexivity. }
    apply (clean_sample _ _ _ _ _ 0);
      [apply data_record_qualifies; vm_compute; reflexivity|].
    apply clean_nil.
  - discriminate.
Defined.

(** *** Increasing timestamps *)

Lemma int_sample_qualifies (rec : fit_record) (p : Z * Z) (k : datetime) :
  int_sample rec p -> _as_dt (VInt (fst p)) = Ok (Some k) ->
  qualifies rec k (snd p).
Proof.
  intros ([Hdef Hrec] & Ets & hr & Ehr & Hnone & En) Hk.
  split; [exact Hdef|]. split; [exact Hrec|].
  exists (VInt (fst p)), hr. repeat split; assumption.
Qed.

Lemma int_samples_clean (records : list fit_record) (pairs : list (Z * Z)) :
  Forall2 int_sample records pairs ->
  Forall (fun p => in_datetime_range (fst p)) pairs ->
  exists samples,
    clean_pass records samples (Z.of_nat (List.length records)) /\
    Forall2 entry_of samples pairs.
Proof.
  induction 1 as [|rec p records pairs Hrec _ IH]; intros Hrange.
  - exists []. split; constructor.
  - inversion Hrange as [|? ? Hp Hrest]; subst.
    destruct (IH Hrest) as (samples & Hclean & Hentries).
    destruct (as_dt_in_range (fst p) Hp) as (k & Hk & _).
    exists ((k, snd p) :: samples). split.
    + replace (Z.of_nat (List.length (rec :: records)))
        with (Z.of_nat (List.length records) + 1) by (cbn [List.length]; lia).
      apply clean_sample; [apply int_sample_qualifies; assumption|exact Hclean].
    + constructor; [split; [exact Hk|reflexivity]|exact Hentries].
Qed.

Lemma entries_sorted (samples : list (datetime * Z)) (pairs : list (Z * Z)) :
  Forall2 entry_of samples pairs ->
  StronglySorted (fun p q => fst p < fst q) pairs ->
  StronglySorted earlier samples.
Proof.
  induction 1 as [|e p samples pairs [He _] Hrest IH]; intros Hs.
  - constructor.
  - inversion Hs as [|? ? Htail Hall]; subst. constructor; [apply IH, Htail|].
    clear IH Hs Htail. induction Hrest as [|f q samples pairs [Hf _] _ IH'].
    + constructor.
    + inversion Hall as [|? ? Hpq Hall']; subst. constructor; [|apply IH', Hall'].
      unfold earlier.
      destruct (as_dt_int_returns _ _ He) as (_ & _ & Hn1).
      destruct (as_dt_int_returns _ _ Hf) as (_ & _ & Hn2). lia.
Qed.

Lemma entries_aware (samples : list (datetime * Z)) (pairs : list (Z * Z)) :
  Forall2 entry_of samples pairs ->
  Forall (fun e => tzinfo (fst e) = Some UTC) samples.
Proof.
  induction 1 as [|e p samples pairs [He _] _ IH]; constructor; [|exact IH].
  apply (as_dt_int_returns _ _ He).
Qed.

Lemma sorted_keys_distinct (samples : list (datetime * Z)) :
  StronglySorted earlier samples ->
  Forall (fun e => tzinfo (fst e) = Some UTC) samples ->
  keys_distinct samples.
Proof.
  induction 1 as [|[k n] rest Hsorted IH Hall]; intros Haware; simpl; [exact I|].
  inversion Haware as [|? ? Hk Hrest]; subst. split; [|apply IH, Hrest].
  clear IH Hsorted Haware. simpl in Hk.
  induction rest as [|[k' n'] rest IH]; simpl; [reflexivity|].
  inversion Hall as [|? ? Hlt Hall']; subst.
  inversion Hrest as [|? ? Hk' Hrest']; subst. simpl in Hk'.
  unfold earlier in Hlt. simpl in Hlt.
  replace (datetime_eqb k' k) with false; [apply IH; assumption|].
  symmetry. unfold datetime_eqb. rewrite Hk, Hk'. apply Z.eqb_neq. lia.
Qed.

(** When every record passes the filters with an integer timestamp
    inside the years 1..9999 and a usable heart rate, and the
    timestamps increase strictly, the call returns one entry per
    record, in source order: each holds its record's heart rate under
    what the normaliser makes of its record's timestamp, and the keys
    increase strictly. *)
Theorem increasing_timestamps_give_sorted_series
        (records : list fit_record) (pairs : list (Z * Z)) :
  Forall2 int_sample records pairs ->
  pairs <> [] ->
  Forall (fun p => in_datetime_range (fst p)) pairs ->
  StronglySorted (fun p q => fst p < fst q) pairs ->
  exists out s,
    extract_polar_hr_series records = (out, Ok s) /\
    Forall2 entry_of s pairs /\
    StronglySorted earlier s.
Proof.
  intros Hrecs Hne Hrange Hsorted.
  destruct (int_samples_clean _ _ Hrecs Hrange) as (samples & Hclean & Hentries).
  pose proof (entries_sorted _ _ Hentries Hsorted) as Hearlier.
  pose proof (sorted_keys_distinct _ Hearlier (entries_aware _ _ Hentries)) as Hdistinct.
  assert (Hsamples : samples <> []).
  { intros ->. inversion Hentries; subst. destruct (Hne eq_refl). }
  destruct (run_loop_clean _ _ _ Hclean initial_locals) as (st & Hrun & Hd & _ & _).
  simpl in Hd. rewrite (store_all_distinct [] samples Hdistinct) in Hd. simpl in Hd.
  exists (report st), samples. split; [|split; assumption].
  unfold extract_polar_hr_series. rewrite Hrun. unfold report. rewrite Hd.
  destruct samples as [|e rest]; [destruct (Hsamples eq_refl)|reflexivity].
Qed.

Lemma increasing_timestamps_give_sorted_series_witness :
  exists out s,
    extract_polar_hr_series
      [data_record (VInt 1000) (VInt 120); data_record (VInt 3000) (VFloat (Float64.of_Z 130))]
    = (out, Ok s) /\
    Forall2 entry_of s [(1000, 120); (3000, 130)] /\
    StronglySorted earlier s.
Proof.
  apply (increasing_timestamps_give_sorted_series
           [data_record (VInt 1000) (VInt 120);
            data_record (VInt 3000) (VFloat (Float64.of_Z 130))]
           [(1000, 120); (3000, 130)]).
  - constructor; [|constructor; [|constructor]].
    + split; [split; reflexivity|]. split; [reflexivity|].
      exists (VInt 120). repeat split.
    + split; [split; reflexivity|]. split; [reflexivity|].
      exists (VFloat (Float64.of_Z 130)). repeat split.
  - discriminate.
  - repeat constructor; unfold in_datetime_range, MIN_SECONDS, MAX_SECONDS; simpl; lia.
  - repeat constructor; simpl; lia.
Defined.

(** *** Counters and duplicates *)

(** The two counters are write-only: passes started from locals that
    differ in the counters alone end alike, in the same error or with
    the same dictionary and the same [ts]. *)
Lemma loop_body_same_store (st1 st2 : locals) (rec : fit_record) :
  hr_by_time st1 = hr_by_time st2 -> ts st1 = ts st2 ->
  match loop_body st1 rec, loop_body st2 rec with
  | Ok a, Ok b => hr_by_time a = hr_by_time b /\ ts a = ts b
  | Err e1, Err e2 => e1 = e2
  | _, _ => False
  end.
Proof.
  intros Hd Hts. destruct (passesb rec) eqn:Ep.
  - apply passesb_passes in Ep. rewrite !(loop_body_passes _ rec Ep), Hd, Hts.
    destruct (msg_value (message rec) "timestamp") as [raw|]; cbn [bind]; [|reflexivity].
    destruct (if isinstance_int raw then d <- _as_dt raw ;; Ok (Some d) else Ok (ts st2))
      as [[[key|]|]|]; cbn [bind]; try reflexivity;
      destruct (msg_value (message rec) "heart_rate") as [hr|]; cbn [bind];
      try reflexivity; try (split; reflexivity).
    destruct (is_None hr); [split; reflexivity|].
    destruct (py_int hr); cbn [bind]; [split|]; reflexivity.
  - apply passesb_filtered in Ep. rewrite !(loop_body_filtered _ rec Ep).
    split; assumption.
Qed.

Lemma run_loop_same_store (records : list fit_record) (st1 st2 : locals) :
  hr_by_time st1 = hr_by_time st2 -> ts st1 = ts st2 ->
  match run_loop st1 records, run_loop st2 records with
  | Ok a, Ok b => hr_by_time a = hr_by_time b /\ ts a = ts b
  | Err e1, Err e2 => e1 = e2
  | _, _ => False
  end.
Proof.
  revert st1 st2. induction records as [|rec rest IH]; intros st1 st2 Hd Hts; simpl.
  - split; assumption.
  - pose proof (loop_body_same_store st1 st2 rec Hd Hts) as Hstep.
    destruct (loop_body st1 rec) as [a|e1], (loop_body st2 rec) as [b|e2];
      cbn [bind]; try contradiction; [|exact Hstep].
    destruct Hstep as [Hd' Hts']. apply IH; assumption.
Qed.

Lemma dict_set_twice (d : series) (k : datetime) (n : Z) :
  dict_set (dict_set d k n) k n = dict_set d k n.
Proof.
  induction d as [|[e v] rest IH]; simpl.
  - rewrite datetime_eqb_refl. reflexivity.
  - destruct (datetime_eqb e k) eqn:E; simpl; rewrite E; [reflexivity|].
    rewrite IH. reflexivity.
Qed.

(** A qualifying record that occurs twice in a row counts twice and
    stores once: the call ends in the same error, or returns the same
    series, as with the record occurring once. *)
Theorem repeated_record_same_series
        (pre post : list fit_record) (rec : fit_record) (key : datetime) (n : Z) :
  qualifies rec key n ->
  snd (extract_polar_hr_series (pre ++ rec :: rec :: post))
  = snd (extract_polar_hr_series (pre ++ rec :: post)).
Proof.
  intros Hq. unfold extract_polar_hr_series. rewrite !run_loop_app.
  destruct (run_loop initial_locals pre) as [st|]; [|reflexivity].
  cbn [bind run_loop]. rewrite !(loop_body_sample _ rec key n Hq). cbn [bind].
  rewrite (loop_body_sample _ rec key n Hq). cbn [bind]. simpl.
  rewrite dict_set_twice.
  pose proof (run_loop_same_store post
                (mkLocals (dict_set (hr_by_time st) key n) (record_msgs st + 1 + 1)
                          (record_with_hr st + 1 + 1) (Some (Some key)))
                (mkLocals (dict_set (hr_by_time st) key n) (record_msgs st + 1)
                          (record_with_hr st + 1) (Some (Some key)))
                eq_refl eq_refl) as Hsame.
  destruct (run_loop _ post) as [a|e1], (run_loop _ post) as [b|e2];
    try contradiction.
  - destruct Hsame as [-> _]. destruct (hr_by_time b); reflexivity.
  - simpl. congruence.
Qed.

Lemma repeated_record_same_series_witness :
  snd (extract_polar_hr_series
         ([definition_record]
            ++ data_record (VInt 1000) (VInt 120)
            :: data_record (VInt 1000) (VInt 120)
            :: [data_record (VInt 3000) (VInt 130)]))
  = snd (extract_polar_hr_series
           ([definition_record]
              ++ data_record (VInt 1000) (VInt 120)
              :: [data_record (VInt 3000) (VInt 130)])).
Proof.
  apply (repeated_record_same_series
           [definition_record] [data_record (VInt 3000) (VInt 130)]
           (data_record (VInt 1000) (VInt 120)) (utc_instant 1000000) 120).
  apply data_record_qualifies. vm_compute. reflexivity.
Defined.

(** ** The empty result and a repeated timestamp, on inputs with a
       timestamp of their own *)

(** A pass that runs to its end with no record counted as having a
    sample ends in the empty-result [RuntimeError]; so does every
    input each record of which is filtered out or carries a usable
    integer timestamp and no heart rate; and a call that returns never
    returns an empty series. *)
Theorem completed_pass_without_sample_raises (records : list fit_record) :
  (forall st, run_loop initial_locals records = Ok st ->
              record_with_hr st = 0 ->
              extract_polar_hr_series records
              = ([], Err (RuntimeError empty_message))) /\
  (forall m, clean_pass records [] m ->
             extract_polar_hr_series records
             = ([], Err (RuntimeError empty_message))) /\
  (forall out s, extract_polar_hr_series records = (out, Ok s) -> s <> []).
Proof.
  split; [|split].
  - intros st Hrun Hzero.
    destruct (run_loop_counted _ _ _ Hrun initial_counted) as [_ Hiff].
    unfold extract_polar_hr_series. rewrite Hrun, (proj1 Hiff Hzero). reflexivity.
  - intros m Hclean.
    destruct (run_loop_clean _ _ _ Hclean initial_locals) as (st & Hrun & Hd & _).
    simpl in Hd. unfold extract_polar_hr_series. rewrite Hrun, Hd. reflexivity.
  - intros out s H. destruct (extract_returns _ _ _ H) as (st & _ & _ & Hne & _).
    exact Hne.
Qed.

Lemma completed_pass_without_sample_raises_witness :
  extract_polar_hr_series [definition_record; data_record (VInt 2000) VNone]
  = ([], Err (RuntimeError empty_message)) /\
  extract_polar_hr_series
    [data_record (VInt 2000) VNone; mkRecord VNone VNone;
     data_record (VInt 3000) VNone]
  = ([], Err (RuntimeError empty_message)) /\
  [(utc_instant 1000000, 120)] <> [].
Proof.
  split; [|split].
  - apply (proj1 (completed_pass_without_sample_raises
                    [definition_record; data_record (VInt 2000) VNone])
             (mkLocals [] 1 0 (Some (Some (utc_instant 2000000))))).
    + vm_compute. reflexivity.
    + reflexivity.
  - apply (proj1 (proj2 (completed_pass_without_sample_raises
                           [data_record (VInt 2000) VNone; mkRecord VNone VNone;
                            data_record (VInt 3000) VNone]))
             (0 + 1 + 1)).
    apply clean_timestamp_only.
    { split; [split; reflexivity|].
      exists (VInt 2000), (utc_instant 2000000).
      split; [reflexivity|]. split; [reflexivity|].
      split; [vm_compute; reflexivity|reflexivity]. }
    apply clean_filtered; [right; reflexivity|].
    apply clean_timestamp_only.
    { split; [split; reflexivity|].
      exists (VInt 3000), (utc_instant 3000000).
      split; [reflexivity|]. split; [reflexivity|].
      split; [vm_compute; reflexivity|reflexivity]. }
    apply clean_nil.
  - apply (proj2 (proj2 (completed_pass_without_sample_raises
                           [data_record (VInt 1000) (VInt 120)]))
             ["[Polar] record messages: 1"; "[Polar] records with HR: 1";
              "[Polar] HR samples extracted: 1"]).
    vm_compute. reflexivity.
Defined.

(** Of two qualifying records whose timestamps normalise to the same
    instant, the later one decides the value a returned series holds
    there, provided every record after it is filtered out or carries
    an integer timestamp of its own that normalises elsewhere; and a
    returned series never holds two samples under one timestamp. *)
Theorem later_record_decides_shared_timestamp
        (pre mid post : list fit_record) (r1 r2 : fit_record)
        (key key' : datetime) (n1 n2 : Z) (out : list string) (s : series) :
  qualifies r1 key n1 ->
  qualifies r2 key' n2 ->
  datetime_eqb key key' = true ->
  Forall (stores_elsewhere key) post ->
  extract_polar_hr_series (pre ++ r1 :: mid ++ r2 :: post) = (out, Ok s) ->
  dict_get s key = Some n2 /\
  forall k, (List.length (samples_at s k) <= 1)%nat.
Proof.
  intros _ Hq2 Hsame Hpost H.
  destruct (extract_returns _ _ _ H) as (st & Hrun & -> & _ & _).
  split.
  - replace (pre ++ r1 :: mid ++ r2 :: post)%list
      with ((pre ++ r1 :: mid) ++ r2 :: post)%list in Hrun
      by (rewrite <- app_assoc; reflexivity).
    destruct (run_loop_app_inv _ _ _ _ Hrun) as (sta & _ & Hrest).
    destruct (run_loop_cons_inv _ _ _ _ Hrest) as (stb & Hstep & Htail).
    rewrite (run_loop_elsewhere _ _ _ _ Hpost Htail).
    rewrite (loop_body_qualifies _ _ _ _ _ Hq2 Hstep), dict_get_set.
    rewrite datetime_eqb_sym, Hsame. reflexivity.
  - intros k. apply keys_distinct_one_sample.
    apply (run_loop_keys_distinct _ _ _ Hrun). exact I.
Qed.

Lemma later_record_decides_shared_timestamp_witness :
  dict_get [(utc_instant 1000000, 125); (utc_instant 2000000, 90)]
           (utc_instant 1000000) = Some 125 /\
  forall k,
    (List.length
       (samples_at [(utc_instant 1000000, 125%Z); (utc_instant 2000000, 90%Z)] k)
     <= 1)%nat.
Proof.
  apply (later_record_decides_shared_timestamp
           [definition_record] [] [data_record (VInt 2000) (VInt 90)]
           (data_record (VInt 1000) (VInt 120))
           (data_record (VInt 1000) (VInt 125))
           (utc_instant 1000000) (utc_instant 1000000) 120 125
           ["[Polar] record messages: 3"; "[Polar] records with HR: 3";
            "[Polar] HR samples extracted: 2"]).
  - apply data_record_qualifies. vm_compute. reflexivity.
  - apply data_record_qualifies. vm_compute. reflexivity.
  - reflexivity.
  - apply Forall_cons; [|apply Forall_nil]. split.
    + right. exists (VInt 2000). split; reflexivity.
    + intros k n (_ & _ & raw & hr & Eraw & _ & Edt & _).
      assert (Eraw' : raw = VInt 2000) by (inversion Eraw; reflexivity).
      subst raw.
      assert (Ek : k = utc_instant 2000000).
      { assert (E2 : _as_dt (VInt 2000) = Ok (Some (utc_instant 2000000)))
          by (vm_compute; reflexivity).
        rewrite E2 in Edt. inversion Edt. reflexivity. }
      subst k. reflexivity.
  - vm_compute. reflexivity.
Defined.
